(** * Advent of Code 2019, day 2 ("1202 Program Alarm"): the Intcode
    interpreter and the noun/verb search of [day2/main.py].

    The Python source works on [list[int]] objects that are passed by
    reference, copied with [.copy()] and updated in place with
    [xs[i] = v].  The embedding keeps that: a program is a reference into a
    store of list objects, every function is a computation in a small
    state-and-exception monad, and the names are the ones of the source. *)

From stdpp Require Import base option list gmap.
From Stdlib Require Import ZArith Lia.

Local Open Scope Z_scope.

(** ** The fragment of the Python runtime that the module uses *)

(** Exceptions the module can meet: [IndexError] from list indexing,
    [TypeError] from calling a builtin with the wrong number of arguments,
    [ValueError] raised by the search itself. *)
Inductive exn : Set := IndexError | TypeError | ValueError.

(** How a computation ends.  [Ok] and [Raise] are Python's two ways out of a
    call.  [Dangling] and [OutOfFuel] belong to the model only: a reference
    that names no object of the store, and a [while] loop cut off by its
    iteration budget. *)
Inductive outcome (A : Type) : Type :=
| Ok (a : A)
| Raise (e : exn)
| Dangling
| OutOfFuel.
Arguments Ok {A} a.
Arguments Raise {A} e.
Arguments Dangling {A}.
Arguments OutOfFuel {A}.

Global Instance exn_eq_dec : EqDecision exn.
Proof. solve_decision. Defined.
Global Instance outcome_eq_dec {A} `{EqDecision A} : EqDecision (outcome A).
Proof. solve_decision. Defined.

(** References to list objects; the store holds the objects in allocation
    order, so a new object always gets the next unused reference. *)
Definition loc : Set := nat.
Definition heap : Type := list (list Z).

(** The monad: a store transformer that ends in an [outcome]. *)
Definition M (A : Type) : Type := heap -> outcome A * heap.

Global Instance M_ret : MRet M := fun A (a : A) h => (Ok a, h).
Global Instance M_bind : MBind M := fun A B (f : A -> M B) (m : M A) h =>
  match m h with
  | (Ok a, h') => f a h'
  | (Raise e, h') => (Raise e, h')
  | (Dangling, h') => (Dangling, h')
  | (OutOfFuel, h') => (OutOfFuel, h')
  end.
Definition raise {A} (e : exn) : M A := fun h => (Raise e, h).

(** [xs[i]] resolves its index the way CPython does: [0 <= i < len] is the
    position itself, [-len <= i < 0] counts from the end, anything else is
    an [IndexError]. *)
Definition resolve_index (len : nat) (i : Z) : option nat :=
  if bool_decide (0 <= i < Z.of_nat len) then Some (Z.to_nat i)
  else if bool_decide (- Z.of_nat len <= i < 0) then Some (Z.to_nat (Z.of_nat len + i))
  else None.

(** [xs[i]] *)
Definition list_getitem (xs : loc) (i : Z) : M Z := fun h =>
  match h !! xs with
  | None => (Dangling, h)
  | Some cells =>
      match resolve_index (length cells) i with
      | None => (Raise IndexError, h)
      | Some k =>
          match cells !! k with
          | Some v => (Ok v, h)
          | None => (Raise IndexError, h)
          end
      end
  end.

(** [xs[i] = v]: the object named by [xs] is updated in place, so every
    alias of [xs] sees the new value. *)
Definition list_setitem (xs : loc) (i : Z) (v : Z) : M unit := fun h =>
  match h !! xs with
  | None => (Dangling, h)
  | Some cells =>
      match resolve_index (length cells) i with
      | None => (Raise IndexError, h)
      | Some k => (Ok tt, <[xs := <[k := v]> cells]> h)
      end
  end.

(** [xs.copy()]: a new list object with the same items. *)
Definition list_copy (xs : loc) : M loc := fun h =>
  match h !! xs with
  | None => (Dangling, h)
  | Some cells => (Ok (length h), h ++ [cells])
  end.

(** [for x in xs: body], where the body may [return] out of the enclosing
    function: [Some r] is that early return, [None] is falling off the end
    of the loop. *)
Fixpoint for_in {A R} (xs : list A) (body : A -> M (option R)) : M (option R) :=
  match xs with
  | [] => mret None
  | x :: rest =>
      r ← body x;
      match r with
      | Some v => mret (Some v)
      | None => for_in rest body
      end
  end.

(** [range(n)] *)
Definition range (n : nat) : list Z := Z.of_nat <$> seq 0 n.

(** ** day2/main.py *)

Definition TARGET_OUTPUT : Z := 19690720.
Definition TARGET_PARAMETER_RANGE : list Z := range 100.

(** [Program = list[int]]: a value of this type is a reference to a list. *)
Definition Program : Set := loc.

Record Parameters : Set := mkParameters { noun : Z; verb : Z }.

(** The three function objects that are stored in an [Operation].  [py_id]
    is the builtin [id] that [HALT_OPERATION] names: the module defines no
    [id] of its own. *)
Inductive callable : Set :=
| py_execute_add_operation
| py_execute_multiply_operation
| py_id.

Record Operation : Set := mkOperation
  { opcode : Z; size : Z; execute : callable }.

Global Instance callable_eq_dec : EqDecision callable.
Proof. solve_decision. Defined.
(** [==] on the named tuple: field by field, functions by identity. *)
Global Instance Operation_eq_dec : EqDecision Operation.
Proof. solve_decision. Defined.
Global Instance Parameters_eq_dec : EqDecision Parameters.
Proof. solve_decision. Defined.

Definition execute_add_operation (program : Program) (instruction_pointer : Z)
  : M Program :=
  read_address_1 ← list_getitem program (instruction_pointer + 1);
  read_address_2 ← list_getitem program (instruction_pointer + 2);
  write_address ← list_getitem program (instruction_pointer + 3);
  value_1 ← list_getitem program read_address_1;
  value_2 ← list_getitem program read_address_2;
  let result := value_1 + value_2 in
  updated_program ← list_copy program;
  list_setitem updated_program write_address result;;
  mret updated_program.

Definition execute_multiply_operation (program : Program) (instruction_pointer : Z)
  : M Program :=
  read_address_1 ← list_getitem program (instruction_pointer + 1);
  read_address_2 ← list_getitem program (instruction_pointer + 2);
  write_address ← list_getitem program (instruction_pointer + 3);
  value_1 ← list_getitem program read_address_1;
  value_2 ← list_getitem program read_address_2;
  let result := value_1 * value_2 in
  updated_program ← list_copy program;
  list_setitem updated_program write_address result;;
  mret updated_program.

(** [f(program, pointer)] for a stored function object.  The builtin [id]
    takes exactly one argument; called with two it raises [TypeError] before
    it looks at either. *)
Definition call (f : callable) (program : Program) (pointer : Z) : M Program :=
  match f with
  | py_execute_add_operation => execute_add_operation program pointer
  | py_execute_multiply_operation => execute_multiply_operation program pointer
  | py_id => raise TypeError
  end.

Definition ADD_OPERATION : Operation :=
  {| opcode := 1; size := 4; execute := py_execute_add_operation |}.
Definition MULTIPLY_OPERATION : Operation :=
  {| opcode := 2; size := 4; execute := py_execute_multiply_operation |}.
Definition HALT_OPERATION : Operation :=
  {| opcode := 99; size := 1; execute := py_id |}.

Definition OPERATIONS : gmap Z Operation :=
  <[opcode HALT_OPERATION := HALT_OPERATION]>
    (<[opcode MULTIPLY_OPERATION := MULTIPLY_OPERATION]>
       (<[opcode ADD_OPERATION := ADD_OPERATION]> ∅)).

(** [d.get(key, fallback)] *)
Definition dict_get (d : gmap Z Operation) (key : Z) (fallback : Operation) : Operation :=
  default fallback (d !! key).

Definition set_program_parameters (program : Program) (noun verb : Z) : M Program :=
  configured_program ← list_copy program;
  list_setitem configured_program 1 noun;;
  list_setitem configured_program 2 verb;;
  mret configured_program.

Definition recreate_1202_program_alarm_state (program : Program) : M Program :=
  set_program_parameters program 12 2.

(** The [while True] loop of [simulate_program], entered with the given
    [program] and [pointer]; [fuel] bounds the number of iterations. *)
Fixpoint simulate_loop (fuel : nat) (program : Program) (pointer : Z) : M Program :=
  match fuel with
  | O => fun h => (OutOfFuel, h)
  | S fuel' =>
      key ← list_getitem program pointer;
      let operation := dict_get OPERATIONS key HALT_OPERATION in
      if decide (operation = HALT_OPERATION) then mret program
      else
        program' ← call (execute operation) program pointer;
        simulate_loop fuel' program' (pointer + size operation)
  end.

(** Iterations that a list of [len] cells can ever need: the pointer grows
    by 4 each time, and the fetch at a pointer past the end raises. *)
Definition iteration_bound (len : nat) : nat := S (Nat.div (len + 3) 4).

Definition simulate_program (program : Program) : M Program := fun h =>
  simulate_loop (iteration_bound (length (default [] (h !! program)))) program 0 h.

Definition read_output (program : Program) : M Z :=
  list_getitem program 0.

Definition parameters_yield_target_output
    (program : Program) (parameters : Parameters) (target_output : Z) : M bool :=
  let '(mkParameters noun verb) := parameters in
  configured_program ← set_program_parameters program noun verb;
  final_state ← simulate_program configured_program;
  output ← read_output final_state;
  mret (bool_decide (output = target_output)).

Definition find_parameters_for_output (program : Program) (target_output : Z)
  : M Parameters :=
  found ← for_in TARGET_PARAMETER_RANGE (fun noun =>
             for_in TARGET_PARAMETER_RANGE (fun verb =>
               let parameters := mkParameters noun verb in
               hit ← parameters_yield_target_output program parameters target_output;
               if (hit : bool) then mret (Some parameters) else mret None));
  match found with
  | Some parameters => mret parameters
  | None => raise ValueError
  end.

(** ** What the functions compute, on the items of the lists

    Every function of the module copies a list before it writes to it, so
    its result is determined by the items of its argument.  The definitions
    below give that result as a function of the items; the lemmas that
    follow show that the functions above compute it, on any store, and
    touch no object that existed before the call. *)

Global Instance outcome_ret : MRet outcome := fun A a => Ok a.
Global Instance outcome_bind : MBind outcome := fun A B f o =>
  match o with
  | Ok a => f a
  | Raise e => Raise e
  | Dangling => Dangling
  | OutOfFuel => OutOfFuel
  end.

Definition cells_getitem (cells : list Z) (i : Z) : outcome Z :=
  match resolve_index (length cells) i with
  | None => Raise IndexError
  | Some k =>
      match cells !! k with
      | Some v => Ok v
      | None => Raise IndexError
      end
  end.

Definition cells_setitem (cells : list Z) (i : Z) (v : Z) : outcome (list Z) :=
  match resolve_index (length cells) i with
  | None => Raise IndexError
  | Some k => Ok (<[k := v]> cells)
  end.

(** The common shape of [execute_add_operation] and
    [execute_multiply_operation]. *)
Definition cells_binary (f : Z -> Z -> Z) (cells : list Z) (ip : Z) : outcome (list Z) :=
  a1 ← cells_getitem cells (ip + 1);
  a2 ← cells_getitem cells (ip + 2);
  a3 ← cells_getitem cells (ip + 3);
  v1 ← cells_getitem cells a1;
  v2 ← cells_getitem cells a2;
  cells_setitem cells a3 (f v1 v2).

Definition cells_call (f : callable) (cells : list Z) (ip : Z) : outcome (list Z) :=
  match f with
  | py_execute_add_operation => cells_binary Z.add cells ip
  | py_execute_multiply_operation => cells_binary Z.mul cells ip
  | py_id => Raise TypeError
  end.

Fixpoint cells_simulate_loop (fuel : nat) (cells : list Z) (pointer : Z)
  : outcome (list Z) :=
  match fuel with
  | O => OutOfFuel
  | S fuel' =>
      key ← cells_getitem cells pointer;
      let operation := dict_get OPERATIONS key HALT_OPERATION in
      if decide (operation = HALT_OPERATION) then Ok cells
      else
        cells' ← cells_call (execute operation) cells pointer;
        cells_simulate_loop fuel' cells' (pointer + size operation)
  end.

Definition cells_simulate (cells : list Z) : outcome (list Z) :=
  cells_simulate_loop (iteration_bound (length cells)) cells 0.

Definition cells_set_parameters (cells : list Z) (noun verb : Z) : outcome (list Z) :=
  configured ← cells_setitem cells 1 noun;
  cells_setitem configured 2 verb.

(** One trial of the search: the output for a noun and a verb. *)
Definition cells_trial (cells : list Z) (noun verb : Z) : outcome Z :=
  configured ← cells_set_parameters cells noun verb;
  final ← cells_simulate configured;
  cells_getitem final 0.

Fixpoint cells_for_in {A R} (xs : list A) (body : A -> outcome (option R))
  : outcome (option R) :=
  match xs with
  | [] => Ok None
  | x :: rest =>
      r ← body x;
      match r with
      | Some v => Ok (Some v)
      | None => cells_for_in rest body
      end
  end.

Definition cells_yield_target (cells : list Z) (noun verb target_output : Z)
  : outcome bool :=
  configured ← cells_set_parameters cells noun verb;
  final ← cells_simulate configured;
  output ← cells_getitem final 0;
  Ok (bool_decide (output = target_output)).

(** The body of the inner loop of the search. *)
Definition cells_probe (cells : list Z) (target_output noun verb : Z)
  : outcome (option Parameters) :=
  hit ← cells_yield_target cells noun verb target_output;
  if (hit : bool) then Ok (Some (mkParameters noun verb)) else Ok None.

Definition cells_find (cells : list Z) (target_output : Z) : outcome Parameters :=
  found ← cells_for_in TARGET_PARAMETER_RANGE (fun noun =>
             cells_for_in TARGET_PARAMETER_RANGE (cells_probe cells target_output noun));
  match found with
  | Some parameters => Ok parameters
  | None => Raise ValueError
  end.

(** The numbers that [TARGET_PARAMETER_RANGE] runs through. *)
Definition in_parameter_range (z : Z) : Prop := 0 <= z < 100.

(** [refines R h m v]: run from the store [h], the computation [m] ends the
    way [v] does, with results related by [R] in the final store, and the
    final store extends [h] (objects of [h] keep their items). *)
Definition refines {A B} (R : heap -> A -> B -> Prop) (h : heap) (m : M A) (v : outcome B)
  : Prop :=
  ∃ h', h `prefix_of` h' ∧
    match v with
    | Ok b => ∃ a, m h = (Ok a, h') ∧ R h' a b
    | Raise e => m h = (Raise e, h')
    | Dangling => False
    | OutOfFuel => m h = (OutOfFuel, h')
    end.

(** The reference names a list with these items. *)
Definition holds (h : heap) (xs : Program) (cells : list Z) : Prop := h !! xs = Some cells.
(** Results that are plain values are the same on both sides. *)
Definition same {A} (_ : heap) (a b : A) : Prop := a = b.

(** The claims speak of addresses within bounds. *)
Definition in_bounds (cells : list Z) (a : Z) : Prop := 0 <= a < Z.of_nat (length cells).

(** A trial that runs to the halt and leaves [output] at address 0: the
    program is copied and configured, the copy simulated, the output read. *)
Definition halts_with_output (program : Program) (noun verb : Z) (h : heap) (output : Z)
  : Prop :=
  ∃ configured h1 final h2,
    set_program_parameters program noun verb h = (Ok configured, h1) ∧
    simulate_program configured h1 = (Ok final, h2) ∧
    read_output final h2 = (Ok output, h2).

(** Where an operation ends, given the items of its argument: on success
    the result is a new object and the store is otherwise as before; a
    failed read leaves the store as it was, a failed write leaves the
    unused copy behind. *)
Definition binary_outcome (f : Z -> Z -> Z) (m : M Program)
    (h : heap) (program : Program) (cells : list Z) (ip : Z) : Prop :=
  match cells_binary f cells ip with
  | Ok cells' => m h = (Ok (length h), h ++ [cells'])
  | Raise e => e = IndexError ∧ (m h = (Raise e, h) ∨ m h = (Raise e, h ++ [cells]))
  | Dangling | OutOfFuel => False
  end.

(** Row-major order on the pairs of the search. *)
Definition scanned_before (n' v' n v : Z) : Prop := n' < n ∨ (n' = n ∧ v' < v).

(** ** The runtime fragment: indexing *)

Section Indexing.
Implicit Types (cells : list Z) (i a v : Z) (k : nat).

Lemma resolve_index_in_bounds (len : nat) i :
  0 <= i < Z.of_nat len -> resolve_index len i = Some (Z.to_nat i).
Proof. intros Hi. unfold resolve_index. by rewrite bool_decide_eq_true_2. Qed.

Lemma resolve_index_negative (len : nat) i :
  - Z.of_nat len <= i < 0 ->
  resolve_index len i = Some (Z.to_nat (Z.of_nat len + i)).
Proof.
  intros Hi. unfold resolve_index.
  rewrite bool_decide_eq_false_2 by lia. by rewrite bool_decide_eq_true_2.
Qed.

Lemma resolve_index_outside (len : nat) i :
  i < - Z.of_nat len ∨ Z.of_nat len <= i -> resolve_index len i = None.
Proof.
  intros Hi. unfold resolve_index.
  rewrite !bool_decide_eq_false_2 by lia. done.
Qed.

Lemma resolve_index_Some (len : nat) i k :
  resolve_index len i = Some k ->
  (k < len)%nat ∧ - Z.of_nat len <= i < Z.of_nat len.
Proof.
  unfold resolve_index. repeat case_bool_decide; intros ?; simplify_eq; lia.
Qed.

Lemma cells_getitem_in_bounds cells a :
  in_bounds cells a -> ∃ v, cells_getitem cells a = Ok v ∧ cells !! Z.to_nat a = Some v.
Proof.
  intros Ha. unfold cells_getitem. rewrite resolve_index_in_bounds by done.
  destruct (lookup_lt_is_Some_2 cells (Z.to_nat a)) as [v Hv]; [unfold in_bounds in Ha; lia|].
  exists v. by rewrite Hv.
Qed.

Lemma cells_getitem_valid cells a :
  - Z.of_nat (length cells) <= a < Z.of_nat (length cells) ->
  ∃ v, cells_getitem cells a = Ok v.
Proof.
  intros Ha. unfold cells_getitem.
  destruct (resolve_index (length cells) a) as [k|] eqn:Hk.
  - apply resolve_index_Some in Hk as [Hk _].
    destruct (lookup_lt_is_Some_2 cells k Hk) as [v ->]. by exists v.
  - destruct (decide (0 <= a)).
    + rewrite resolve_index_in_bounds in Hk by lia. done.
    + rewrite resolve_index_negative in Hk by lia. done.
Qed.

Lemma cells_getitem_Ok cells a v :
  cells_getitem cells a = Ok v ->
  - Z.of_nat (length cells) <= a < Z.of_nat (length cells).
Proof.
  unfold cells_getitem.
  destruct (resolve_index (length cells) a) as [k|] eqn:Hk; [|done].
  intros _. by apply resolve_index_Some in Hk as [_ ?].
Qed.

Lemma cells_getitem_outside cells a :
  a < - Z.of_nat (length cells) ∨ Z.of_nat (length cells) <= a ->
  cells_getitem cells a = Raise IndexError.
Proof. intros Ha. unfold cells_getitem. by rewrite resolve_index_outside. Qed.

(** Reading raises nothing but [IndexError]. *)
Lemma cells_getitem_cases cells a :
  (∃ v, cells_getitem cells a = Ok v) ∨ cells_getitem cells a = Raise IndexError.
Proof.
  unfold cells_getitem. destruct (resolve_index _ _); [|by right].
  destruct (cells !! _); eauto.
Qed.

Lemma cells_setitem_in_bounds cells a v :
  in_bounds cells a -> cells_setitem cells a v = Ok (<[Z.to_nat a := v]> cells).
Proof. intros Ha. unfold cells_setitem. by rewrite resolve_index_in_bounds. Qed.

Lemma cells_setitem_outside cells a v :
  a < - Z.of_nat (length cells) ∨ Z.of_nat (length cells) <= a ->
  cells_setitem cells a v = Raise IndexError.
Proof. intros Ha. unfold cells_setitem. by rewrite resolve_index_outside. Qed.

Lemma cells_setitem_cases cells a v :
  (∃ k, (k < length cells)%nat ∧ cells_setitem cells a v = Ok (<[k := v]> cells)) ∨
  cells_setitem cells a v = Raise IndexError.
Proof.
  unfold cells_setitem. destruct (resolve_index _ _) as [k|] eqn:Hk; [|by right].
  left. exists k. by apply resolve_index_Some in Hk as [? _].
Qed.

Lemma cells_setitem_length cells a v cells' :
  cells_setitem cells a v = Ok cells' -> length cells' = length cells.
Proof.
  destruct (cells_setitem_cases cells a v) as [(k & _ & ->)| ->]; [|done].
  intros [= <-]. apply length_insert.
Qed.
End Indexing.

(** ** The runtime fragment: list objects in the store *)

Section Store.
Implicit Types (h : heap) (xs : loc) (cells : list Z) (i v : Z).

Lemma list_getitem_cells h xs cells i :
  h !! xs = Some cells -> list_getitem xs i h = (cells_getitem cells i, h).
Proof.
  intros Hxs. unfold list_getitem, cells_getitem. rewrite Hxs.
  destruct (resolve_index _ _); [|done]. by destruct (cells !! _).
Qed.

Lemma list_setitem_cells h xs cells i v :
  h !! xs = Some cells ->
  list_setitem xs i v h =
    match cells_setitem cells i v with
    | Ok cells' => (Ok tt, <[xs := cells']> h)
    | Raise e => (Raise e, h)
    | Dangling => (Dangling, h)
    | OutOfFuel => (OutOfFuel, h)
    end.
Proof.
  intros Hxs. unfold list_setitem, cells_setitem. rewrite Hxs.
  by destruct (resolve_index _ _).
Qed.

Lemma list_copy_cells h xs cells :
  h !! xs = Some cells -> list_copy xs h = (Ok (length h), h ++ [cells]).
Proof. intros Hxs. unfold list_copy. by rewrite Hxs. Qed.

(** Writing to the object that was allocated last. *)
Lemma insert_last h cells cells' :
  <[length h := cells']> (h ++ [cells]) = h ++ [cells'].
Proof.
  rewrite insert_app_r_alt by lia. by rewrite Nat.sub_diag.
Qed.

Lemma lookup_last h cells : (h ++ [cells]) !! length h = Some cells.
Proof. by rewrite list_lookup_middle. Qed.

Lemma holds_prefix h h' xs cells :
  h `prefix_of` h' -> holds h xs cells -> holds h' xs cells.
Proof. intros Hpre Hxs. by eapply prefix_lookup_Some. Qed.
End Store.

(** ** The two arithmetic operations *)

Section Operations.
Implicit Types (h : heap) (program : Program) (cells : list Z) (ip : Z).

Local Ltac read_cell cells a :=
  let v := fresh "v" in
  let Hv := fresh "Hv" in
  destruct (cells_getitem_cases cells a) as [[v Hv]|Hv];
  rewrite Hv; simpl; [|by auto].

Local Ltac run_binary Hprogram :=
  unfold binary_outcome, cells_binary, mbind, M_bind, outcome_bind, mret, M_ret;
  repeat (rewrite ?(list_getitem_cells _ _ _ _ Hprogram);
          match goal with |- context [cells_getitem ?c ?a] => read_cell c a end);
  rewrite (list_copy_cells _ _ _ Hprogram);
  rewrite (list_setitem_cells _ _ _ _ _ (lookup_last _ _));
  match goal with
  | |- context [cells_setitem ?c ?a ?v] =>
      destruct (cells_setitem_cases c a v) as [(? & _ & ->)| ->]
  end; [by rewrite insert_last | by auto].

Lemma execute_add_operation_cells h program cells ip :
  h !! program = Some cells ->
  binary_outcome Z.add (execute_add_operation program ip) h program cells ip.
Proof. intros Hprogram. unfold execute_add_operation. run_binary Hprogram. Qed.

Lemma execute_multiply_operation_cells h program cells ip :
  h !! program = Some cells ->
  binary_outcome Z.mul (execute_multiply_operation program ip) h program cells ip.
Proof. intros Hprogram. unfold execute_multiply_operation. run_binary Hprogram. Qed.

Lemma cells_binary_length f cells ip cells' :
  cells_binary f cells ip = Ok cells' -> length cells' = length cells.
Proof.
  unfold cells_binary, mbind, outcome_bind.
  repeat (match goal with
          | |- context [match cells_getitem ?c ?a with _ => _ end] =>
              destruct (cells_getitem c a); try done
          end).
  apply cells_setitem_length.
Qed.

Lemma cells_binary_cases f cells ip :
  (∃ cells', cells_binary f cells ip = Ok cells') ∨
  cells_binary f cells ip = Raise IndexError.
Proof.
  unfold cells_binary, mbind, outcome_bind.
  repeat (match goal with
          | |- context [match cells_getitem ?c ?a with _ => _ end] =>
              destruct (cells_getitem_cases c a) as [[? ->]| ->]; [|by right]
          end).
  match goal with
  | |- context [cells_setitem ?c ?a ?v] =>
      destruct (cells_setitem_cases c a v) as [(? & _ & ->)| ->]; eauto
  end.
Qed.

(** The operation as a function of the three addresses it fetched. *)
Lemma cells_binary_fetched f cells ip a1 a2 a3 :
  cells_getitem cells (ip + 1) = Ok a1 ->
  cells_getitem cells (ip + 2) = Ok a2 ->
  cells_getitem cells (ip + 3) = Ok a3 ->
  cells_binary f cells ip =
    (v1 ← cells_getitem cells a1;
     v2 ← cells_getitem cells a2;
     cells_setitem cells a3 (f v1 v2)).
Proof. intros H1 H2 H3. unfold cells_binary. by rewrite H1, H2, H3. Qed.
End Operations.

(** ** Running a sequence of two computations *)

Lemma bind_Ok {A B} (m : M A) (f : A -> M B) (h h' : heap) (a : A) :
  m h = (Ok a, h') -> (m ≫= f) h = f a h'.
Proof. intros Hm. unfold mbind, M_bind. by rewrite Hm. Qed.

Lemma bind_Raise {A B} (m : M A) (f : A -> M B) (h h' : heap) (e : exn) :
  m h = (Raise e, h') -> (m ≫= f) h = (Raise e, h').
Proof. intros Hm. unfold mbind, M_bind. by rewrite Hm. Qed.

(** ** Refinement: composing computations *)

Section Refinement.
Context {A B A' B' : Type}.
Implicit Types (h : heap).

Lemma refines_ret (R : heap -> A -> B -> Prop) h a b :
  R h a b -> refines R h (mret a) (Ok b).
Proof. intros HR. exists h. split; [done|]. by exists a. Qed.

Lemma refines_raise (R : heap -> A -> B -> Prop) h e :
  refines R h (raise e) (Raise e).
Proof. by exists h. Qed.

Lemma refines_bind (R : heap -> A -> B -> Prop) (R' : heap -> A' -> B' -> Prop)
    h (m : M A) (v : outcome B) (f : A -> M A') (g : B -> outcome B') :
  refines R h m v ->
  (∀ h' a b, h `prefix_of` h' -> R h' a b -> refines R' h' (f a) (g b)) ->
  refines R' h (m ≫= f) (v ≫= g).
Proof.
  intros (h1 & Hpre & Hm) Hk.
  destruct v as [b|e| |]; simpl.
  - destruct Hm as (a & Hm & HR).
    destruct (Hk h1 a b Hpre HR) as (h2 & Hpre2 & Hfa).
    exists h2. split; [by etrans|].
    by rewrite (bind_Ok _ _ _ _ _ Hm).
  - exists h1. split; [done|]. unfold mbind, M_bind. by rewrite Hm.
  - done.
  - exists h1. split; [done|]. unfold mbind, M_bind. by rewrite Hm.
Qed.

(** A computation refines at most one outcome. *)
Lemma refines_Ok_inv (R : heap -> A -> B -> Prop) h (m : M A) (v : outcome B) a h' :
  refines R h m v -> m h = (Ok a, h') -> ∃ b, v = Ok b ∧ R h' a b ∧ h `prefix_of` h'.
Proof.
  intros (h1 & Hpre & Hm) Hrun. destruct v as [b|e| |]; [|congruence|done|congruence].
  destruct Hm as (a1 & Ha1 & HR). rewrite Hrun in Ha1. simplify_eq. eauto.
Qed.

Lemma refines_Raise_inv (R : heap -> A -> B -> Prop) h (m : M A) (v : outcome B) e h' :
  refines R h m v -> m h = (Raise e, h') -> v = Raise e.
Proof.
  intros (h1 & Hpre & Hm) Hrun. destruct v as [b|e1| |]; [|congruence|done|congruence].
  destruct Hm as (a1 & Ha1 & HR). congruence.
Qed.

Lemma refines_outcome (R : heap -> A -> B -> Prop) h (m : M A) (v : outcome B) :
  refines R h m v ->
  match v with
  | Ok b => ∃ a, (m h).1 = Ok a
  | Raise e => (m h).1 = Raise e
  | Dangling => False
  | OutOfFuel => (m h).1 = OutOfFuel
  end.
Proof.
  intros (h1 & Hpre & Hm). destruct v as [b|e| |]; [|by rewrite Hm|done|by rewrite Hm].
  destruct Hm as (a & -> & _). by exists a.
Qed.

Lemma refines_prefix (R : heap -> A -> B -> Prop) h (m : M A) (v : outcome B) :
  refines R h m v -> h `prefix_of` (m h).2.
Proof.
  intros (h1 & Hpre & Hm). destruct v as [b|e| |]; [|by rewrite Hm|done|by rewrite Hm].
  by destruct Hm as (a & -> & _).
Qed.
End Refinement.

(** ** The operation registry *)

Section Registry.
Implicit Types (key : Z).

Lemma OPERATIONS_add : dict_get OPERATIONS 1 HALT_OPERATION = ADD_OPERATION.
Proof. reflexivity. Qed.

Lemma OPERATIONS_multiply : dict_get OPERATIONS 2 HALT_OPERATION = MULTIPLY_OPERATION.
Proof. reflexivity. Qed.

Lemma OPERATIONS_halt : dict_get OPERATIONS 99 HALT_OPERATION = HALT_OPERATION.
Proof. reflexivity. Qed.

Lemma OPERATIONS_absent key :
  key ≠ 1 -> key ≠ 2 -> key ≠ 99 -> OPERATIONS !! key = None.
Proof.
  intros H1 H2 H99. unfold OPERATIONS. simpl.
  rewrite !lookup_insert_ne by done. apply lookup_empty.
Qed.

Lemma OPERATIONS_fallback key :
  key ≠ 1 -> key ≠ 2 -> dict_get OPERATIONS key HALT_OPERATION = HALT_OPERATION.
Proof.
  intros H1 H2. destruct (decide (key = 99)) as [->|H99]; [done|].
  unfold dict_get. by rewrite OPERATIONS_absent.
Qed.

(** The three ways a fetched word dispatches. *)
Lemma dispatch_cases key :
  (key = 1 ∧ dict_get OPERATIONS key HALT_OPERATION = ADD_OPERATION) ∨
  (key = 2 ∧ dict_get OPERATIONS key HALT_OPERATION = MULTIPLY_OPERATION) ∨
  (key ≠ 1 ∧ key ≠ 2 ∧ dict_get OPERATIONS key HALT_OPERATION = HALT_OPERATION).
Proof.
  destruct (decide (key = 1)) as [->|H1]; [by left|].
  destruct (decide (key = 2)) as [->|H2]; [by right; left|].
  right; right. by rewrite OPERATIONS_fallback.
Qed.
End Registry.

(** ** The interpreter loop *)

Section Interpreter.
Implicit Types (h : heap) (program : Program) (cells : list Z) (pointer key : Z)
  (fuel : nat).

Lemma call_refines h f program cells pointer :
  holds h program cells ->
  refines holds h (call f program pointer) (cells_call f cells pointer).
Proof.
  intros Hprogram. destruct f; simpl.
  - pose proof (execute_add_operation_cells h program cells pointer Hprogram) as Hrun.
    unfold binary_outcome in Hrun. destruct (cells_binary _ _ _) as [cells'|e| |]; try done.
    + exists (h ++ [cells']). split; [by apply prefix_app_r|].
      exists (length h). split; [done|]. apply lookup_last.
    + destruct Hrun as [_ [Hrun|Hrun]]; eexists; (split; [|exact Hrun]);
        [done|by apply prefix_app_r].
  - pose proof (execute_multiply_operation_cells h program cells pointer Hprogram) as Hrun.
    unfold binary_outcome in Hrun. destruct (cells_binary _ _ _) as [cells'|e| |]; try done.
    + exists (h ++ [cells']). split; [by apply prefix_app_r|].
      exists (length h). split; [done|]. apply lookup_last.
    + destruct Hrun as [_ [Hrun|Hrun]]; eexists; (split; [|exact Hrun]);
        [done|by apply prefix_app_r].
  - apply refines_raise.
Qed.

(** One iteration that stops: the fetched word is no add and no multiply. *)
Lemma simulate_loop_stops fuel h program pointer key :
  list_getitem program pointer h = (Ok key, h) ->
  key ≠ 1 -> key ≠ 2 ->
  simulate_loop (S fuel) program pointer h = (Ok program, h).
Proof.
  intros Hfetch H1 H2. simpl. rewrite (bind_Ok _ _ _ _ _ Hfetch).
  rewrite OPERATIONS_fallback by done. by rewrite decide_True.
Qed.

Lemma simulate_loop_fetch_raises fuel h program pointer e :
  list_getitem program pointer h = (Raise e, h) ->
  simulate_loop (S fuel) program pointer h = (Raise e, h).
Proof. intros Hfetch. simpl. by rewrite (bind_Raise _ _ _ _ _ Hfetch). Qed.

(** One iteration that executes: the operation runs and the loop goes on
    four words further. *)
Lemma simulate_loop_add fuel h program pointer :
  list_getitem program pointer h = (Ok 1, h) ->
  simulate_loop (S fuel) program pointer h =
    (execute_add_operation program pointer ≫=
       (fun program' => simulate_loop fuel program' (pointer + 4))) h.
Proof. intros Hfetch. simpl. by rewrite (bind_Ok _ _ _ _ _ Hfetch). Qed.

Lemma simulate_loop_multiply fuel h program pointer :
  list_getitem program pointer h = (Ok 2, h) ->
  simulate_loop (S fuel) program pointer h =
    (execute_multiply_operation program pointer ≫=
       (fun program' => simulate_loop fuel program' (pointer + 4))) h.
Proof. intros Hfetch. simpl. by rewrite (bind_Ok _ _ _ _ _ Hfetch). Qed.

Lemma simulate_loop_refines fuel : ∀ h program cells pointer,
  holds h program cells ->
  refines holds h (simulate_loop fuel program pointer)
    (cells_simulate_loop fuel cells pointer).
Proof.
  induction fuel as [|fuel IH]; intros h program cells pointer Hprogram.
  { by exists h. }
  simpl. eapply (refines_bind same).
  { exists h. split; [done|]. rewrite (list_getitem_cells _ _ _ _ Hprogram).
    destruct (cells_getitem_cases cells pointer) as [[key ->]| ->]; [|done].
    by exists key. }
  intros h1 key ? Hpre <-. simpl.
  case_decide.
  { apply refines_ret. by eapply holds_prefix. }
  eapply refines_bind.
  { apply call_refines. by eapply holds_prefix. }
  intros h2 program' cells' _ Hprogram'. by apply IH.
Qed.

Lemma simulate_program_unfold h program cells :
  holds h program cells ->
  simulate_program program h =
    simulate_loop (iteration_bound (length cells)) program 0 h.
Proof. intros Hprogram. unfold simulate_program. by rewrite Hprogram. Qed.

Lemma simulate_program_refines h program cells :
  holds h program cells ->
  refines holds h (simulate_program program) (cells_simulate cells).
Proof.
  intros Hprogram.
  pose proof (simulate_loop_refines (iteration_bound (length cells)) h program cells 0
                Hprogram) as (h' & Hpre & Hrun).
  exists h'. split; [done|].
  by rewrite (simulate_program_unfold _ _ _ Hprogram).
Qed.

(** The loop keeps the number of cells. *)
Lemma cells_simulate_loop_length fuel : ∀ cells pointer cells',
  cells_simulate_loop fuel cells pointer = Ok cells' -> length cells' = length cells.
Proof.
  induction fuel as [|fuel IH]; intros cells pointer cells'; [done|].
  simpl. destruct (cells_getitem cells pointer) as [key|e| |]; try done. simpl.
  case_decide; [by intros [= <-]|].
  destruct (dispatch_cases key) as [[_ Heq]|[[_ Heq]|(_ & _ & Heq)]];
    [| |done]; rewrite Heq; simpl;
    (destruct (cells_binary _ cells pointer) as [cells1|e| |] eqn:Hop; try done);
    simpl; intros Hrest; apply IH in Hrest;
    apply cells_binary_length in Hop; congruence.
Qed.

(** The loop ends in a result or in an [IndexError], unless it is cut off. *)
Lemma cells_simulate_loop_cases fuel : ∀ cells pointer,
  (∃ cells', cells_simulate_loop fuel cells pointer = Ok cells') ∨
  cells_simulate_loop fuel cells pointer = Raise IndexError ∨
  cells_simulate_loop fuel cells pointer = OutOfFuel.
Proof.
  induction fuel as [|fuel IH]; intros cells pointer; [by right; right|].
  simpl. destruct (cells_getitem_cases cells pointer) as [[key ->]| ->]; [|by right; left].
  simpl. case_decide; [by eauto|].
  destruct (dispatch_cases key) as [[_ Heq]|[[_ Heq]|(_ & _ & Heq)]];
    [| |done]; rewrite Heq; simpl;
    (match goal with
     | |- context [cells_binary ?f cells pointer] =>
         destruct (cells_binary_cases f cells pointer) as [[cells1 ->]| ->]
     end; [|by right; left]); simpl; apply IH.
Qed.
End Interpreter.

(** ** Termination of the loop *)

Section Termination.
Implicit Types (h : heap) (program : Program) (cells : list Z) (pointer : Z)
  (fuel : nat).

(** [iteration_bound len] is [ceil(len / 4) + 1]. *)
Lemma iteration_bound_ceil (len : nat) :
  ∃ q : nat, iteration_bound len = S q ∧ (len <= 4 * q < len + 4)%nat.
Proof.
  exists (Nat.div (len + 3) 4). split; [done|].
  pose proof (Nat.div_mod_eq (len + 3) 4).
  pose proof (Nat.mod_upper_bound (len + 3) 4). lia.
Qed.

Lemma cells_simulate_loop_enough fuel : ∀ cells pointer,
  0 <= pointer -> (0 < fuel)%nat ->
  Z.of_nat (length cells) + 4 <= pointer + 4 * Z.of_nat fuel ->
  cells_simulate_loop fuel cells pointer ≠ OutOfFuel.
Proof.
  induction fuel as [|fuel IH]; intros cells pointer Hpointer Hfuel Hbound; [lia|].
  simpl. destruct (cells_getitem cells pointer) as [key|e| |] eqn:Hfetch; try done.
  - simpl. case_decide; [done|].
    apply cells_getitem_Ok in Hfetch.
    assert (size (dict_get OPERATIONS key HALT_OPERATION) = 4) as Hsize.
    { destruct (dispatch_cases key) as [[_ ->]|[[_ ->]|(_ & _ & ?)]]; done. }
    destruct (cells_call _ cells pointer) as [cells1|e| |] eqn:Hop; try done.
    + simpl. rewrite Hsize.
      assert (length cells1 = length cells) as Hlen.
      { destruct (execute _); simpl in Hop; try done;
          by apply cells_binary_length in Hop. }
      apply IH; [lia|lia|]. rewrite Hlen. lia.
    + destruct (execute _); simpl in Hop; try done;
        match type of Hop with
        | cells_binary ?f _ _ = _ =>
            by destruct (cells_binary_cases f cells pointer) as [[? ?]|?]; congruence
        end.
  - by destruct (cells_getitem_cases cells pointer) as [[? ?]|?]; congruence.
Qed.

Lemma cells_simulate_terminates cells : cells_simulate cells ≠ OutOfFuel.
Proof.
  unfold cells_simulate.
  destruct (iteration_bound_ceil (length cells)) as (q & Hq & Hrange).
  apply cells_simulate_loop_enough; lia.
Qed.

(** A run that ended is not changed by a larger budget. *)
Lemma simulate_loop_more fuel : ∀ program pointer h fuel',
  (simulate_loop fuel program pointer h).1 ≠ OutOfFuel ->
  (fuel <= fuel')%nat ->
  simulate_loop fuel' program pointer h = simulate_loop fuel program pointer h.
Proof.
  induction fuel as [|fuel IH]; intros program pointer h fuel' Hend Hle; [done|].
  destruct fuel' as [|fuel']; [lia|].
  simpl in *. unfold mbind, M_bind in *.
  destruct (list_getitem program pointer h) as [[key|e| |] h1]; try done.
  case_decide; [done|].
  destruct (call _ program pointer h1) as [[program'|e| |] h2]; try done.
  apply IH; [done|lia].
Qed.

Lemma simulate_loop_enough h program cells fuel :
  holds h program cells ->
  (iteration_bound (length cells) <= fuel)%nat ->
  simulate_loop fuel program 0 h = simulate_program program h.
Proof.
  intros Hprogram Hfuel. rewrite (simulate_program_unfold _ _ _ Hprogram).
  apply simulate_loop_more; [|done].
  pose proof (simulate_loop_refines (iteration_bound (length cells)) h program cells 0
                Hprogram) as Href.
  apply refines_outcome in Href.
  pose proof (cells_simulate_terminates cells) as Hterm. unfold cells_simulate in Hterm.
  destruct (cells_simulate_loop _ cells 0); [|congruence|done|done].
  destruct Href as [final Hfinal]. congruence.
Qed.

(** Whatever budget lets the loop end gives the result of
    [simulate_program]. *)
Lemma simulate_loop_ended h program cells fuel :
  holds h program cells ->
  (simulate_loop fuel program 0 h).1 ≠ OutOfFuel ->
  simulate_loop fuel program 0 h = simulate_program program h.
Proof.
  intros Hprogram Hend.
  destruct (decide (iteration_bound (length cells) <= fuel)%nat) as [Hle|Hgt].
  - by apply (simulate_loop_enough _ _ cells).
  - rewrite (simulate_program_unfold _ _ _ Hprogram). symmetry.
    apply simulate_loop_more; [done|lia].
Qed.

Lemma cells_simulate_cases cells :
  (∃ cells', cells_simulate cells = Ok cells' ∧ length cells' = length cells) ∨
  cells_simulate cells = Raise IndexError.
Proof.
  pose proof (cells_simulate_terminates cells) as Hterm. unfold cells_simulate in *.
  destruct (cells_simulate_loop_cases (iteration_bound (length cells)) cells 0)
    as [[cells' Hrun]|[Hrun|Hrun]]; [|by right|done].
  left. exists cells'. split; [done|]. by eapply cells_simulate_loop_length.
Qed.
End Termination.

(** ** Configuring a program and running one trial *)

Section Trial.
Implicit Types (h : heap) (program : Program) (cells : list Z)
  (noun verb target_output output : Z).

Lemma set_program_parameters_cells h program cells noun verb :
  holds h program cells ->
  match cells_set_parameters cells noun verb with
  | Ok cells' =>
      set_program_parameters program noun verb h = (Ok (length h), h ++ [cells'])
  | Raise e =>
      e = IndexError ∧
      ∃ unused, set_program_parameters program noun verb h = (Raise e, h ++ [unused])
  | Dangling | OutOfFuel => False
  end.
Proof.
  intros Hprogram.
  unfold set_program_parameters, cells_set_parameters, mbind, M_bind, outcome_bind,
    mret, M_ret.
  rewrite (list_copy_cells _ _ _ Hprogram).
  rewrite (list_setitem_cells _ _ _ _ _ (lookup_last _ _)).
  destruct (cells_setitem_cases cells 1 noun) as [(k1 & _ & ->)| ->]; [|by eauto].
  rewrite insert_last.
  rewrite (list_setitem_cells _ _ _ _ _ (lookup_last _ _)).
  destruct (cells_setitem_cases (<[k1:=noun]> cells) 2 verb) as [(k2 & _ & ->)| ->];
    [|by eauto].
  by rewrite insert_last.
Qed.

Lemma set_program_parameters_refines h program cells noun verb :
  holds h program cells ->
  refines holds h (set_program_parameters program noun verb)
    (cells_set_parameters cells noun verb).
Proof.
  intros Hprogram.
  pose proof (set_program_parameters_cells h program cells noun verb Hprogram) as Hrun.
  destruct (cells_set_parameters cells noun verb) as [cells'|e| |]; try done.
  - exists (h ++ [cells']). split; [by apply prefix_app_r|].
    exists (length h). split; [done|]. apply lookup_last.
  - destruct Hrun as (_ & unused & Hrun). exists (h ++ [unused]).
    split; [by apply prefix_app_r|done].
Qed.

Lemma read_output_refines h program cells :
  holds h program cells ->
  refines same h (read_output program) (cells_getitem cells 0).
Proof.
  intros Hprogram. exists h. split; [done|]. unfold read_output.
  rewrite (list_getitem_cells _ _ _ _ Hprogram).
  destruct (cells_getitem_cases cells 0) as [[v ->]| ->]; [|done]. by exists v.
Qed.

Lemma parameters_yield_target_output_refines h program cells noun verb target_output :
  holds h program cells ->
  refines same h
    (parameters_yield_target_output program (mkParameters noun verb) target_output)
    (cells_yield_target cells noun verb target_output).
Proof.
  intros Hprogram. unfold parameters_yield_target_output, cells_yield_target.
  eapply refines_bind; [by apply set_program_parameters_refines|].
  intros h1 configured_program configured _ Hconfigured.
  eapply refines_bind; [by apply simulate_program_refines|].
  intros h2 final_state final _ Hfinal.
  eapply refines_bind; [by apply read_output_refines|].
  intros h3 output ? _ <-. by apply refines_ret.
Qed.

Lemma cells_yield_target_trial cells noun verb target_output :
  cells_yield_target cells noun verb target_output =
    (output ← cells_trial cells noun verb; Ok (bool_decide (output = target_output))).
Proof.
  unfold cells_yield_target, cells_trial.
  destruct (cells_set_parameters cells noun verb) as [configured|e| |]; try done.
  simpl. by destruct (cells_simulate configured).
Qed.

Lemma cells_set_parameters_cases cells noun verb :
  (∃ cells', cells_set_parameters cells noun verb = Ok cells') ∨
  cells_set_parameters cells noun verb = Raise IndexError.
Proof.
  unfold cells_set_parameters.
  destruct (cells_setitem_cases cells 1 noun) as [(k1 & _ & ->)| ->]; [|by right].
  simpl.
  destruct (cells_setitem_cases (<[k1:=noun]> cells) 2 verb) as [(k2 & _ & ->)| ->];
    eauto.
Qed.

(** A trial ends with an output or with an [IndexError]. *)
Lemma cells_trial_cases cells noun verb :
  (∃ output, cells_trial cells noun verb = Ok output) ∨
  cells_trial cells noun verb = Raise IndexError.
Proof.
  unfold cells_trial.
  destruct (cells_set_parameters_cases cells noun verb) as [[configured ->]| ->];
    [|by right].
  simpl.
  destruct (cells_simulate_cases configured) as [(final & -> & _)| ->]; [|by right].
  simpl. destruct (cells_getitem_cases final 0) as [[output ->]| ->]; eauto.
Qed.

Lemma cells_yield_target_true cells noun verb target_output :
  cells_yield_target cells noun verb target_output = Ok true <->
  cells_trial cells noun verb = Ok target_output.
Proof.
  rewrite cells_yield_target_trial.
  destruct (cells_trial cells noun verb) as [output|e| |]; simpl; [|done..].
  case_bool_decide; split; intros ?; simplify_eq; done.
Qed.

Lemma cells_yield_target_false cells noun verb target_output :
  cells_yield_target cells noun verb target_output = Ok false <->
  ∃ output, cells_trial cells noun verb = Ok output ∧ output ≠ target_output.
Proof.
  rewrite cells_yield_target_trial.
  destruct (cells_trial cells noun verb) as [output|e| |]; simpl;
    [|split; [done|by intros (? & ? & _)]..].
  case_bool_decide; split.
  - done.
  - intros (? & ? & ?). simplify_eq.
  - intros _. by exists output.
  - done.
Qed.

(** The trial in the store and the trial on the items agree. *)
Lemma halts_with_output_cells h program cells noun verb output :
  holds h program cells ->
  halts_with_output program noun verb h output <->
  cells_trial cells noun verb = Ok output.
Proof.
  intros Hprogram. unfold halts_with_output, cells_trial. split.
  - intros (configured_program & h1 & final_state & h2 & Hset & Hsim & Hread).
    destruct (refines_Ok_inv _ _ _ _ _ _
                (set_program_parameters_refines _ _ _ noun verb Hprogram) Hset)
      as (configured & -> & Hconfigured & _).
    simpl.
    destruct (refines_Ok_inv _ _ _ _ _ _
                (simulate_program_refines _ _ _ Hconfigured) Hsim)
      as (final & -> & Hfinal & _).
    simpl.
    destruct (refines_Ok_inv _ _ _ _ _ _
                (read_output_refines _ _ _ Hfinal) Hread)
      as (? & -> & <- & _).
    done.
  - intros Htrial.
    pose proof (set_program_parameters_refines _ _ _ noun verb Hprogram)
      as (h1 & _ & Hset).
    destruct (cells_set_parameters cells noun verb) as [configured|e| |]; try done.
    destruct Hset as (configured_program & Hset & Hconfigured). simpl in Htrial.
    pose proof (simulate_program_refines _ _ _ Hconfigured) as (h2 & _ & Hsim).
    destruct (cells_simulate configured) as [final|e| |]; try done.
    destruct Hsim as (final_state & Hsim & Hfinal). simpl in Htrial.
    exists configured_program, h1, final_state, h2. split; [done|]. split; [done|].
    unfold read_output. rewrite (list_getitem_cells _ _ _ _ Hfinal). by rewrite Htrial.
Qed.
End Trial.

(** ** Loops over a range *)

Section Loops.
Context {A R : Type}.
Implicit Types (xs pre post : list A) (body : A -> outcome (option R)).

(** A [for] loop either runs through, every body falling off its end, or
    stops at the first element whose body does anything else, and ends
    the way that body does. *)
Lemma cells_for_in_scan xs body :
  (Forall (fun y => body y = Ok None) xs ∧ cells_for_in xs body = Ok None) ∨
  (∃ pre x post, xs = pre ++ x :: post ∧
     Forall (fun y => body y = Ok None) pre ∧
     body x ≠ Ok None ∧ cells_for_in xs body = body x).
Proof.
  induction xs as [|x xs IH]; [by left|].
  simpl. destruct (body x) as [[v|]|e| |] eqn:Hx; simpl.
  - right. exists [], x, xs. rewrite Hx. by repeat split.
  - destruct IH as [[Hall Hrun]|(pre & x' & post & -> & Hpre & Hstop & Hrun)].
    + left. split; [by constructor|done].
    + right. exists (x :: pre), x', post. repeat split; [by constructor|done..].
  - right. exists [], x, xs. rewrite Hx. by repeat split.
  - right. exists [], x, xs. rewrite Hx. by repeat split.
  - right. exists [], x, xs. rewrite Hx. by repeat split.
Qed.

Lemma for_in_refines xs (body : A -> M (option R)) body' : ∀ h,
  (∀ x h', h `prefix_of` h' -> refines same h' (body x) (body' x)) ->
  refines same h (for_in xs body) (cells_for_in xs body').
Proof.
  induction xs as [|x xs IH]; intros h Hbody; [by apply refines_ret|].
  simpl. eapply refines_bind; [by apply Hbody|].
  intros h1 r ? Hpre <-. destruct r as [v|]; [by apply refines_ret|].
  apply IH. intros y h2 Hpre2. apply Hbody. by etrans.
Qed.
End Loops.

Lemma refines_same {A} (h : heap) (m : M A) (v : outcome A) :
  refines same h m v -> (m h).1 = v.
Proof.
  intros (h' & _ & Hrun). destruct v as [b|e| |]; [|by rewrite Hrun|done|by rewrite Hrun].
  destruct Hrun as (a & -> & <-). done.
Qed.

Section Range.
Implicit Types (n k : nat) (z x : Z) (pre post : list Z).

Lemma elem_of_range n z : z ∈ range n <-> 0 <= z < Z.of_nat n.
Proof.
  unfold range. rewrite list_elem_of_fmap. setoid_rewrite elem_of_seq. split.
  - intros (k & -> & Hk). lia.
  - intros Hz. exists (Z.to_nat z). split; lia.
Qed.

Lemma range_lookup n k z : range n !! k = Some z -> z = Z.of_nat k ∧ (k < n)%nat.
Proof.
  unfold range. rewrite list_lookup_fmap. intros Hk.
  apply fmap_Some in Hk as (i & Hi & ->). apply lookup_seq in Hi as [-> ?]. done.
Qed.

(** Splitting a range at an element: what comes before it is exactly the
    smaller numbers. *)
Lemma range_split n pre x post :
  range n = pre ++ x :: post ->
  0 <= x < Z.of_nat n ∧ ∀ z, z ∈ pre <-> 0 <= z < x.
Proof.
  intros Hsplit.
  assert (range n !! length pre = Some x) as Hx.
  { rewrite Hsplit. by rewrite list_lookup_middle. }
  apply range_lookup in Hx as [-> Hlt]. split; [lia|].
  assert (pre = range (length pre)) as Hpre.
  { transitivity (take (length pre) (range n)).
    - rewrite Hsplit. by rewrite take_app_length.
    - unfold range. rewrite <- fmap_take, take_seq. f_equal. f_equal. lia. }
  intros z. rewrite Hpre at 1. apply elem_of_range.
Qed.
End Range.


(** ** The search *)

Section Search.
Implicit Types (h : heap) (program : Program) (cells : list Z) (T n v : Z).

Lemma elem_of_TARGET_PARAMETER_RANGE z :
  z ∈ TARGET_PARAMETER_RANGE <-> in_parameter_range z.
Proof. unfold TARGET_PARAMETER_RANGE, in_parameter_range. rewrite elem_of_range. lia. Qed.

Lemma TARGET_PARAMETER_RANGE_split pre x post :
  TARGET_PARAMETER_RANGE = pre ++ x :: post ->
  in_parameter_range x ∧ ∀ z, z ∈ pre <-> 0 <= z < x.
Proof.
  intros Hsplit. apply range_split in Hsplit as [Hx Hpre].
  split; [unfold in_parameter_range; lia|done].
Qed.

Lemma cells_probe_None cells T n v :
  cells_probe cells T n v = Ok None <-> cells_yield_target cells n v T = Ok false.
Proof.
  unfold cells_probe. destruct (cells_yield_target cells n v T) as [[|]|e| |]; simpl;
    split; intros ?; by simplify_eq.
Qed.

Lemma cells_probe_stop cells T n v :
  cells_probe cells T n v ≠ Ok None ->
  (found ← cells_probe cells T n v;
   match found with Some parameters => Ok parameters | None => Raise ValueError end) =
  (hit ← cells_yield_target cells n v T; Ok (mkParameters n v)).
Proof.
  unfold cells_probe. by destruct (cells_yield_target cells n v T) as [[|]|e| |].
Qed.

(** The search either finds every trial short of the target, and raises
    [ValueError], or stops at the first pair, in row-major order, whose
    trial does anything else: it returns that pair if the trial hit the
    target, and ends as the trial did otherwise. *)
Lemma cells_find_scan cells T :
  ((∀ n v, in_parameter_range n -> in_parameter_range v ->
      cells_yield_target cells n v T = Ok false) ∧
   cells_find cells T = Raise ValueError) ∨
  (∃ n v, in_parameter_range n ∧ in_parameter_range v ∧
     (∀ n' v', in_parameter_range n' -> in_parameter_range v' ->
        scanned_before n' v' n v -> cells_yield_target cells n' v' T = Ok false) ∧
     cells_yield_target cells n v T ≠ Ok false ∧
     cells_find cells T = (hit ← cells_yield_target cells n v T; Ok (mkParameters n v))).
Proof.
  unfold cells_find.
  set (inner := fun noun => cells_for_in TARGET_PARAMETER_RANGE (cells_probe cells T noun)).
  assert (∀ n, inner n = Ok None ->
            ∀ v, in_parameter_range v -> cells_yield_target cells n v T = Ok false)
    as Hrow.
  { intros n Hn v Hv. unfold inner in Hn.
    destruct (cells_for_in_scan TARGET_PARAMETER_RANGE (cells_probe cells T n))
      as [[Hall _]|(pre & x & post & _ & _ & Hstop & Hrun)].
    - rewrite Forall_forall in Hall. apply cells_probe_None, Hall.
      by apply elem_of_TARGET_PARAMETER_RANGE.
    - congruence. }
  destruct (cells_for_in_scan TARGET_PARAMETER_RANGE inner)
    as [[Hall ->]|(pre & n & post & Hsplit & Hpre & Hstop & ->)].
  - left. split; [|done]. intros n v Hn Hv. apply Hrow; [|done].
    rewrite Forall_forall in Hall. by apply Hall, elem_of_TARGET_PARAMETER_RANGE.
  - right. apply TARGET_PARAMETER_RANGE_split in Hsplit as [Hn Hbefore].
    rewrite Forall_forall in Hpre.
    unfold inner in Hstop |- *.
    destruct (cells_for_in_scan TARGET_PARAMETER_RANGE (cells_probe cells T n))
      as [[_ Hnone]|(pre' & v & post' & Hsplit' & Hpre' & Hstop' & Hrun)]; [done|].
    apply TARGET_PARAMETER_RANGE_split in Hsplit' as [Hv Hbefore'].
    rewrite Forall_forall in Hpre'.
    exists n, v. split; [done|]. split; [done|]. split; [|split].
    + intros n' v' Hn' Hv' [Hlt|[-> Hlt]].
      * apply Hrow; [|done]. apply Hpre, Hbefore. unfold in_parameter_range in Hn'. lia.
      * apply cells_probe_None, Hpre', Hbefore'. unfold in_parameter_range in Hv'. lia.
    + by rewrite <- cells_probe_None.
    + rewrite Hrun. by apply cells_probe_stop.
Qed.

Lemma cells_probe_refines h program cells T n v :
  holds h program cells ->
  refines same h
    (hit ← parameters_yield_target_output program (mkParameters n v) T;
     if (hit : bool) then mret (Some (mkParameters n v)) else mret None)
    (cells_probe cells T n v).
Proof.
  intros Hprogram. unfold cells_probe.
  eapply refines_bind; [by apply parameters_yield_target_output_refines|].
  intros h1 hit ? _ <-. destruct hit; by apply refines_ret.
Qed.

Lemma find_parameters_for_output_refines h program cells T :
  holds h program cells ->
  refines same h (find_parameters_for_output program T) (cells_find cells T).
Proof.
  intros Hprogram. unfold find_parameters_for_output, cells_find.
  eapply (refines_bind same).
  { apply for_in_refines. intros n h1 Hpre1.
    apply for_in_refines. intros v h2 Hpre2.
    apply cells_probe_refines. eapply holds_prefix; [|done]. by etrans. }
  intros h1 found ? _ <-. destruct found; [by apply refines_ret|apply refines_raise].
Qed.

Lemma find_parameters_for_output_cells h program cells T :
  holds h program cells ->
  (find_parameters_for_output program T h).1 = cells_find cells T.
Proof. intros Hprogram. by apply refines_same, find_parameters_for_output_refines. Qed.
End Search.


(** ** The claims about the operations *)

(** Reading the items directly, for an address within bounds. *)
Lemma list_getitem_in_bounds (h : heap) (program : Program) (cells : list Z) (a : Z) :
  h !! program = Some cells -> in_bounds cells a ->
  ∃ v, cells !! Z.to_nat a = Some v ∧ list_getitem program a h = (Ok v, h).
Proof.
  intros Hprogram Ha. rewrite (list_getitem_cells _ _ _ _ Hprogram).
  destruct (cells_getitem_in_bounds cells a Ha) as (v & -> & Hv). by exists v.
Qed.

Lemma list_getitem_Ok (h h' : heap) (program : Program) (cells : list Z) (a v : Z) :
  h !! program = Some cells -> list_getitem program a h = (Ok v, h') ->
  cells_getitem cells a = Ok v.
Proof.
  intros Hprogram. rewrite (list_getitem_cells _ _ _ _ Hprogram). by intros [= -> _].
Qed.

(** C2. For every memory and instruction pointer with [ip + 3] within
    bounds, whose three parameter words [Memory[ip+1]], [Memory[ip+2]],
    [Memory[ip+3]] are addresses within bounds, [execute_add_operation]
    returns a memory (a new list object; the store is otherwise as before)
    that holds [Memory[Memory[ip+1]] + Memory[Memory[ip+2]]] at address
    [Memory[ip+3]] and the old value at every other address; the size of
    the add operation is 4. *)
Theorem execute_add_operation_spec
    (h : heap) (program : Program) (cells : list Z) (ip a1 a2 a3 : Z) :
  h !! program = Some cells ->
  in_bounds cells (ip + 3) ->
  list_getitem program (ip + 1) h = (Ok a1, h) ->
  list_getitem program (ip + 2) h = (Ok a2, h) ->
  list_getitem program (ip + 3) h = (Ok a3, h) ->
  in_bounds cells a1 -> in_bounds cells a2 -> in_bounds cells a3 ->
  ∃ v1 v2 updated,
    cells !! Z.to_nat a1 = Some v1 ∧
    cells !! Z.to_nat a2 = Some v2 ∧
    execute_add_operation program ip h = (Ok (length h), h ++ [updated]) ∧
    length updated = length cells ∧
    updated !! Z.to_nat a3 = Some (v1 + v2) ∧
    (∀ j : nat, j ≠ Z.to_nat a3 -> updated !! j = cells !! j) ∧
    size ADD_OPERATION = 4.
Proof.
  intros Hprogram _ Hf1 Hf2 Hf3 Ha1 Ha2 Ha3.
  apply (list_getitem_Ok _ _ _ _ _ _ Hprogram) in Hf1, Hf2, Hf3.
  destruct (cells_getitem_in_bounds cells a1 Ha1) as (v1 & Hv1 & Hc1).
  destruct (cells_getitem_in_bounds cells a2 Ha2) as (v2 & Hv2 & Hc2).
  exists v1, v2, (<[Z.to_nat a3 := v1 + v2]> cells).
  pose proof (execute_add_operation_cells h program cells ip Hprogram) as Hrun.
  unfold binary_outcome in Hrun.
  rewrite (cells_binary_fetched _ _ _ _ _ _ Hf1 Hf2 Hf3), Hv1, Hv2 in Hrun. simpl in Hrun.
  rewrite cells_setitem_in_bounds in Hrun by done.
  repeat split; try done.
  - apply length_insert.
  - apply list_lookup_insert_eq. unfold in_bounds in Ha3. lia.
  - intros j Hj. by apply list_lookup_insert_ne.
Qed.

Lemma execute_add_operation_spec_witness :
  let h := [[1; 0; 0; 0; 99]] in
  ∃ v1 v2 updated,
    [1; 0; 0; 0; 99] !! Z.to_nat 0 = Some v1 ∧
    [1; 0; 0; 0; 99] !! Z.to_nat 0 = Some v2 ∧
    execute_add_operation 0%nat 0 h = (Ok (length h), h ++ [updated]) ∧
    length updated = length [1; 0; 0; 0; 99] ∧
    updated !! Z.to_nat 0 = Some (v1 + v2) ∧
    (∀ j : nat, j ≠ Z.to_nat 0 -> updated !! j = [1; 0; 0; 0; 99] !! j) ∧
    size ADD_OPERATION = 4.
Proof.
  apply (execute_add_operation_spec [[1; 0; 0; 0; 99]] 0%nat [1; 0; 0; 0; 99] 0 0 0 0);
    try reflexivity; unfold in_bounds; simpl; lia.
Defined.

(** The same for the multiply operation, with the product. *)
Lemma execute_multiply_operation_spec
    (h : heap) (program : Program) (cells : list Z) (ip a1 a2 a3 : Z) :
  h !! program = Some cells ->
  list_getitem program (ip + 1) h = (Ok a1, h) ->
  list_getitem program (ip + 2) h = (Ok a2, h) ->
  list_getitem program (ip + 3) h = (Ok a3, h) ->
  in_bounds cells a1 -> in_bounds cells a2 -> in_bounds cells a3 ->
  ∃ v1 v2,
    cells !! Z.to_nat a1 = Some v1 ∧
    cells !! Z.to_nat a2 = Some v2 ∧
    execute_multiply_operation program ip h =
      (Ok (length h), h ++ [<[Z.to_nat a3 := v1 * v2]> cells]) ∧
    size MULTIPLY_OPERATION = 4.
Proof.
  intros Hprogram Hf1 Hf2 Hf3 Ha1 Ha2 Ha3.
  apply (list_getitem_Ok _ _ _ _ _ _ Hprogram) in Hf1, Hf2, Hf3.
  destruct (cells_getitem_in_bounds cells a1 Ha1) as (v1 & Hv1 & Hc1).
  destruct (cells_getitem_in_bounds cells a2 Ha2) as (v2 & Hv2 & Hc2).
  exists v1, v2.
  pose proof (execute_multiply_operation_cells h program cells ip Hprogram) as Hrun.
  unfold binary_outcome in Hrun.
  rewrite (cells_binary_fetched _ _ _ _ _ _ Hf1 Hf2 Hf3), Hv1, Hv2 in Hrun. simpl in Hrun.
  rewrite cells_setitem_in_bounds in Hrun by done.
  done.
Qed.


(** ** The claims about the registry and the halt *)

(** C3. An opcode that is none of 1, 2 and 99 is not a key of the registry;
    the lookup with the halt operation as fallback returns the halt
    operation, and the interpreter, fetching such a word (or 99), stops and
    returns the current memory: the same object, the store untouched. *)
Theorem unknown_opcode_is_halt (key : Z) :
  key ≠ 1 -> key ≠ 2 -> key ≠ 99 ->
  OPERATIONS !! key = None ∧
  dict_get OPERATIONS key HALT_OPERATION = HALT_OPERATION ∧
  dict_get OPERATIONS key HALT_OPERATION = dict_get OPERATIONS 99 HALT_OPERATION ∧
  ∀ (word : Z) (fuel : nat) (h : heap) (program : Program) (pointer : Z),
    word = key ∨ word = 99 ->
    list_getitem program pointer h = (Ok word, h) ->
    simulate_loop (S fuel) program pointer h = (Ok program, h) ∧
    (pointer = 0 -> simulate_program program h = (Ok program, h)).
Proof.
  intros H1 H2 H99. split; [by apply OPERATIONS_absent|].
  split; [by apply OPERATIONS_fallback|]. split; [by rewrite OPERATIONS_fallback|].
  intros word fuel h program pointer Hword Hfetch.
  assert (word ≠ 1 ∧ word ≠ 2) as [Hw1 Hw2] by (destruct Hword as [->| ->]; done).
  split; [by eapply simulate_loop_stops|].
  intros ->. unfold simulate_program. by eapply simulate_loop_stops.
Qed.

Lemma unknown_opcode_is_halt_witness :
  OPERATIONS !! 7 = None ∧
  simulate_program 0%nat [[7; 0; 0; 0]] = (Ok 0%nat, [[7; 0; 0; 0]]).
Proof.
  destruct (unknown_opcode_is_halt 7) as (Habsent & _ & _ & Hstop); [lia..|].
  split; [exact Habsent|].
  apply (Hstop 7 0%nat [[7; 0; 0; 0]] 0%nat 0); [by left|reflexivity|reflexivity].
Defined.

(** C4. Simulating the memory [1,9,10,3,2,3,11,0,99,30,40,50] runs to the
    halt, and the final memory has 3500 at address 0. *)
Theorem scenario_3500 (h : heap) (program : Program) :
  h !! program = Some [1; 9; 10; 3; 2; 3; 11; 0; 99; 30; 40; 50] ->
  ∃ final h',
    simulate_program program h = (Ok final, h') ∧
    h' !! final = Some [3500; 9; 10; 70; 2; 3; 11; 0; 99; 30; 40; 50] ∧
    read_output final h' = (Ok 3500, h').
Proof.
  intros Hprogram.
  destruct (simulate_program_refines h program _ Hprogram) as (h' & _ & Hrun).
  assert (cells_simulate [1; 9; 10; 3; 2; 3; 11; 0; 99; 30; 40; 50] =
          Ok [3500; 9; 10; 70; 2; 3; 11; 0; 99; 30; 40; 50]) as Hcells
    by (vm_compute; reflexivity).
  rewrite Hcells in Hrun. destruct Hrun as (final & Hrun & Hfinal).
  exists final, h'. split; [done|]. split; [done|].
  unfold read_output. by rewrite (list_getitem_cells _ _ _ _ Hfinal).
Qed.

Lemma scenario_3500_witness :
  ∃ final h',
    simulate_program 0%nat [[1; 9; 10; 3; 2; 3; 11; 0; 99; 30; 40; 50]] = (Ok final, h') ∧
    h' !! final = Some [3500; 9; 10; 70; 2; 3; 11; 0; 99; 30; 40; 50] ∧
    read_output final h' = (Ok 3500, h').
Proof.
  apply (scenario_3500 [[1; 9; 10; 3; 2; 3; 11; 0; 99; 30; 40; 50]] 0%nat). reflexivity.
Defined.

(** The other runs that the puzzle text gives. *)
Example scenario_add : cells_simulate [1; 0; 0; 0; 99] = Ok [2; 0; 0; 0; 99].
Proof. vm_compute. reflexivity. Qed.

Example scenario_multiply : cells_simulate [2; 3; 0; 3; 99] = Ok [2; 3; 0; 6; 99].
Proof. vm_compute. reflexivity. Qed.

Example scenario_square : cells_simulate [2; 4; 4; 5; 99; 0] = Ok [2; 4; 4; 5; 99; 9801].
Proof. vm_compute. reflexivity. Qed.

Example scenario_rewrite :
  cells_simulate [1; 1; 1; 4; 99; 5; 6; 0; 99] = Ok [30; 1; 1; 4; 2; 5; 6; 0; 99].
Proof. vm_compute. reflexivity. Qed.

(** C5. A memory whose cell at address 0 is the halt opcode, or any word
    that is neither add nor multiply, is returned unchanged by the
    interpreter (the same object, the store untouched); so simulating the
    final memory of such a run once more gives it back again. *)
Theorem simulate_program_halted
    (h : heap) (program : Program) (cells : list Z) (word : Z) :
  h !! program = Some cells ->
  cells !! 0%nat = Some word ->
  word ≠ 1 -> word ≠ 2 ->
  simulate_program program h = (Ok program, h) ∧
  ∀ final h',
    simulate_program program h = (Ok final, h') ->
    h' !! final = Some cells ∧ simulate_program final h' = (Ok final, h').
Proof.
  intros Hprogram Hword H1 H2.
  assert (simulate_program program h = (Ok program, h)) as Hrun.
  { destruct (list_getitem_in_bounds h program cells 0 Hprogram) as (v & Hv & Hfetch).
    { apply lookup_lt_Some in Hword. unfold in_bounds. lia. }
    change (Z.to_nat 0) with 0%nat in Hv. rewrite Hword in Hv. injection Hv as <-.
    unfold simulate_program. by apply (simulate_loop_stops _ _ _ _ word). }
  split; [done|]. intros final h' Hfinal. rewrite Hrun in Hfinal. by simplify_eq.
Qed.

Lemma simulate_program_halted_witness :
  simulate_program 0%nat [[99; 1; 2]] = (Ok 0%nat, [[99; 1; 2]]).
Proof.
  destruct (simulate_program_halted [[99; 1; 2]] 0%nat [99; 1; 2] 99) as [Hrun _];
    [reflexivity|reflexivity|lia|lia|exact Hrun].
Defined.

(** The final memory of a run that executed something need not be a fixed
    point: [1,0,0,0,99] ends as [2,0,0,0,99], which runs on to
    [4,0,0,0,99]. *)
Example simulate_program_twice :
  cells_simulate [1; 0; 0; 0; 99] = Ok [2; 0; 0; 0; 99] ∧
  cells_simulate [2; 0; 0; 0; 99] = Ok [4; 0; 0; 0; 99].
Proof. split; vm_compute; reflexivity. Qed.

(** Calling the function stored in the halt operation. *)
Lemma call_halt_execute (program : Program) (pointer : Z) (h : heap) :
  call (execute HALT_OPERATION) program pointer h = (Raise TypeError, h).
Proof. reflexivity. Qed.

(** C6. The halt operation has size 1, and the interpreter, fetching 99,
    stops with the memory as it is.  The function stored as its [execute],
    though, is the builtin [id]: applied to a memory and an instruction
    pointer it raises [TypeError] and returns no memory. *)
Theorem halt_operation_execute :
  size HALT_OPERATION = 1 ∧
  simulate_program 0%nat [[99]] = (Ok 0%nat, [[99]]) ∧
  call (execute HALT_OPERATION) 0%nat 0 [[99]] = (Raise TypeError, [[99]]).
Proof. repeat split. Qed.


(** ** The claims about configuring and about bounds *)

(** C7. For a program of at least three cells, [set_program_parameters]
    returns a reference that named nothing before the call, to a list that
    has the noun at address 1, the verb at address 2 and the items of the
    program everywhere else; the program, like every object that existed
    before the call, has the items it had. *)
Theorem set_program_parameters_spec
    (h : heap) (program : Program) (cells : list Z) (noun verb : Z) :
  h !! program = Some cells ->
  (3 <= length cells)%nat ->
  ∃ configured_program h' configured,
    set_program_parameters program noun verb h = (Ok configured_program, h') ∧
    h !! configured_program = None ∧
    configured_program ≠ program ∧
    h' !! configured_program = Some configured ∧
    h' !! program = Some cells ∧
    (∀ xs : loc, (xs < length h)%nat -> h' !! xs = h !! xs) ∧
    length configured = length cells ∧
    configured !! 1%nat = Some noun ∧
    configured !! 2%nat = Some verb ∧
    (∀ j : nat, j ≠ 1%nat -> j ≠ 2%nat -> configured !! j = cells !! j).
Proof.
  intros Hprogram Hlen.
  pose proof (set_program_parameters_cells h program cells noun verb Hprogram) as Hrun.
  unfold cells_set_parameters in Hrun.
  rewrite cells_setitem_in_bounds in Hrun by (unfold in_bounds; lia). simpl in Hrun.
  rewrite cells_setitem_in_bounds in Hrun
    by (unfold in_bounds; rewrite length_insert; lia).
  change (Z.to_nat 1) with 1%nat in Hrun. change (Z.to_nat 2) with 2%nat in Hrun.
  exists (length h), (h ++ [<[2%nat := verb]> (<[1%nat := noun]> cells)]),
    (<[2%nat := verb]> (<[1%nat := noun]> cells)).
  split; [done|]. split; [by apply lookup_ge_None_2|].
  split; [apply lookup_lt_Some in Hprogram; lia|].
  split; [apply lookup_last|].
  split; [by apply lookup_app_l_Some|].
  split; [intros xs Hxs; by apply lookup_app_l|].
  split; [by rewrite !length_insert|].
  split; [rewrite list_lookup_insert_ne by done;
          apply list_lookup_insert_eq; lia|].
  split; [apply list_lookup_insert_eq; rewrite length_insert; lia|].
  intros j Hj1 Hj2. by rewrite !list_lookup_insert_ne.
Qed.

Lemma set_program_parameters_spec_witness :
  ∃ configured_program h',
    set_program_parameters 0%nat 12 2 [[1; 0; 0; 0; 99]] = (Ok configured_program, h') ∧
    h' !! configured_program = Some [1; 12; 2; 0; 99] ∧
    h' !! 0%nat = Some [1; 0; 0; 0; 99].
Proof.
  destruct (set_program_parameters_spec [[1; 0; 0; 0; 99]] 0%nat [1; 0; 0; 0; 99] 12 2)
    as (configured_program & h' & configured & Hrun & _ & _ & Hnew & Hold & _);
    [reflexivity|simpl; lia|].
  exists configured_program, h'. split; [exact Hrun|]. split; [|exact Hold].
  vm_compute in Hrun. injection Hrun as <- <-. reflexivity.
Defined.

(** An address is valid for Python when it is within bounds or counts
    from the end. *)
Lemma resolve_index_valid (len : nat) (a : Z) :
  - Z.of_nat len <= a < Z.of_nat len ->
  ∃ k : nat, resolve_index len a = Some k ∧ (k < len)%nat ∧
    Z.of_nat k = (if decide (a < 0) then Z.of_nat len + a else a).
Proof.
  intros Ha. case_decide.
  - rewrite resolve_index_negative by lia. eexists. split; [done|]. lia.
  - rewrite resolve_index_in_bounds by lia. eexists. split; [done|]. lia.
Qed.

(** An operation whose three addresses are valid succeeds, at the
    positions the addresses resolve to. *)
Lemma cells_binary_valid (f : Z -> Z -> Z) (cells : list Z) (ip a1 a2 a3 : Z) :
  cells_getitem cells (ip + 1) = Ok a1 ->
  cells_getitem cells (ip + 2) = Ok a2 ->
  cells_getitem cells (ip + 3) = Ok a3 ->
  let len := Z.of_nat (length cells) in
  - len <= a1 < len -> - len <= a2 < len -> - len <= a3 < len ->
  ∃ (k1 k2 k3 : nat) (v1 v2 : Z),
    Z.of_nat k1 = (if decide (a1 < 0) then len + a1 else a1) ∧
    Z.of_nat k2 = (if decide (a2 < 0) then len + a2 else a2) ∧
    Z.of_nat k3 = (if decide (a3 < 0) then len + a3 else a3) ∧
    cells !! k1 = Some v1 ∧ cells !! k2 = Some v2 ∧
    cells_binary f cells ip = Ok (<[k3 := f v1 v2]> cells).
Proof.
  intros Hf1 Hf2 Hf3 len Ha1 Ha2 Ha3.
  destruct (resolve_index_valid (length cells) a1 Ha1) as (k1 & Hk1 & Hlt1 & Hp1).
  destruct (resolve_index_valid (length cells) a2 Ha2) as (k2 & Hk2 & Hlt2 & Hp2).
  destruct (resolve_index_valid (length cells) a3 Ha3) as (k3 & Hk3 & Hlt3 & Hp3).
  destruct (lookup_lt_is_Some_2 cells k1 Hlt1) as [v1 Hv1].
  destruct (lookup_lt_is_Some_2 cells k2 Hlt2) as [v2 Hv2].
  exists k1, k2, k3, v1, v2. repeat split; try done.
  rewrite (cells_binary_fetched _ _ _ _ _ _ Hf1 Hf2 Hf3).
  unfold cells_getitem, cells_setitem. rewrite Hk1, Hk2, Hk3, Hv1. simpl. by rewrite Hv2.
Qed.

(** One address outside [-len, len) makes the operation raise. *)
Lemma cells_binary_invalid (f : Z -> Z -> Z) (cells : list Z) (ip a1 a2 a3 : Z) :
  cells_getitem cells (ip + 1) = Ok a1 ->
  cells_getitem cells (ip + 2) = Ok a2 ->
  cells_getitem cells (ip + 3) = Ok a3 ->
  let len := Z.of_nat (length cells) in
  (a1 < - len ∨ len <= a1) ∨ (a2 < - len ∨ len <= a2) ∨ (a3 < - len ∨ len <= a3) ->
  cells_binary f cells ip = Raise IndexError.
Proof.
  intros Hf1 Hf2 Hf3 len Hbad.
  destruct (cells_binary_cases f cells ip) as [[cells' Hrun]|Hrun]; [|done].
  rewrite (cells_binary_fetched _ _ _ _ _ _ Hf1 Hf2 Hf3) in Hrun.
  destruct (cells_getitem cells a1) as [v1| | |] eqn:Hv1; try done.
  destruct (cells_getitem cells a2) as [v2| | |] eqn:Hv2; try done.
  simpl in Hrun. apply cells_getitem_Ok in Hv1, Hv2.
  destruct Hbad as [Hbad|[Hbad|Hbad]]; [lia|lia|].
  by rewrite cells_setitem_outside in Hrun.
Qed.

(** The two operations in the store, from what they compute on the items. *)
Lemma execute_operations_Ok
    (h : heap) (program : Program) (cells sum product : list Z) (ip : Z) :
  h !! program = Some cells ->
  cells_binary Z.add cells ip = Ok sum ->
  cells_binary Z.mul cells ip = Ok product ->
  execute_add_operation program ip h = (Ok (length h), h ++ [sum]) ∧
  execute_multiply_operation program ip h = (Ok (length h), h ++ [product]).
Proof.
  intros Hprogram Hadd Hmul.
  pose proof (execute_add_operation_cells h program cells ip Hprogram) as Hrun1.
  pose proof (execute_multiply_operation_cells h program cells ip Hprogram) as Hrun2.
  unfold binary_outcome in *. by rewrite Hadd in Hrun1; rewrite Hmul in Hrun2.
Qed.

Lemma execute_operations_Raise
    (h : heap) (program : Program) (cells : list Z) (ip : Z) :
  h !! program = Some cells ->
  cells_binary Z.add cells ip = Raise IndexError ->
  cells_binary Z.mul cells ip = Raise IndexError ->
  (∃ h', execute_add_operation program ip h = (Raise IndexError, h')) ∧
  (∃ h', execute_multiply_operation program ip h = (Raise IndexError, h')).
Proof.
  intros Hprogram Hadd Hmul.
  pose proof (execute_add_operation_cells h program cells ip Hprogram) as Hrun1.
  pose proof (execute_multiply_operation_cells h program cells ip Hprogram) as Hrun2.
  unfold binary_outcome in *. rewrite Hadd in Hrun1. rewrite Hmul in Hrun2.
  destruct Hrun1 as [_ [?|?]], Hrun2 as [_ [?|?]]; eauto.
Qed.

(** C8. With the three parameter words fetched: when each address lies in
    [0, len - 1] (the last cell included), add and multiply succeed; when
    one of them equals [len], both fail with [IndexError], and so does the
    interpreter on reaching that instruction. *)
Theorem boundary_addresses
    (h : heap) (program : Program) (cells : list Z) (ip a1 a2 a3 : Z) :
  h !! program = Some cells ->
  list_getitem program (ip + 1) h = (Ok a1, h) ->
  list_getitem program (ip + 2) h = (Ok a2, h) ->
  list_getitem program (ip + 3) h = (Ok a3, h) ->
  let len := Z.of_nat (length cells) in
  (0 <= a1 <= len - 1 ∧ 0 <= a2 <= len - 1 ∧ 0 <= a3 <= len - 1 ->
     (∃ updated h', execute_add_operation program ip h = (Ok updated, h')) ∧
     (∃ updated h', execute_multiply_operation program ip h = (Ok updated, h'))) ∧
  (a1 = len ∨ a2 = len ∨ a3 = len ->
     (∃ h', execute_add_operation program ip h = (Raise IndexError, h')) ∧
     (∃ h', execute_multiply_operation program ip h = (Raise IndexError, h')) ∧
     ∀ (fuel : nat) (word : Z),
       list_getitem program ip h = (Ok word, h) -> word = 1 ∨ word = 2 ->
       ∃ h', simulate_loop (S fuel) program ip h = (Raise IndexError, h')).
Proof.
  intros Hprogram Hf1 Hf2 Hf3 len.
  apply (list_getitem_Ok _ _ _ _ _ _ Hprogram) in Hf1, Hf2, Hf3.
  split.
  - intros (Ha1 & Ha2 & Ha3).
    destruct (cells_binary_valid Z.add cells ip a1 a2 a3 Hf1 Hf2 Hf3)
      as (? & ? & ? & ? & ? & _ & _ & _ & _ & _ & Hadd); [fold len; lia..|].
    destruct (cells_binary_valid Z.mul cells ip a1 a2 a3 Hf1 Hf2 Hf3)
      as (? & ? & ? & ? & ? & _ & _ & _ & _ & _ & Hmul); [fold len; lia..|].
    destruct (execute_operations_Ok h program cells _ _ ip Hprogram Hadd Hmul)
      as [Hrun1 Hrun2].
    split; eauto.
  - intros Hlen.
    assert (cells_binary Z.add cells ip = Raise IndexError) as Hadd
      by (eapply cells_binary_invalid; [done..|fold len; lia]).
    assert (cells_binary Z.mul cells ip = Raise IndexError) as Hmul
      by (eapply cells_binary_invalid; [done..|fold len; lia]).
    destruct (execute_operations_Raise h program cells ip Hprogram Hadd Hmul)
      as [[h1 Hrun1] [h2 Hrun2]].
    split; [by eauto|]. split; [by eauto|].
    intros fuel word Hfetch [-> | ->].
    + exists h1. rewrite simulate_loop_add by done. by apply bind_Raise.
    + exists h2. rewrite simulate_loop_multiply by done. by apply bind_Raise.
Qed.

Lemma boundary_addresses_witness :
  (∃ updated h', execute_add_operation 0%nat 0 [[1; 4; 4; 4; 99]] = (Ok updated, h')) ∧
  (∃ h', simulate_loop 1 0%nat 0 [[1; 0; 5; 0; 99]] = (Raise IndexError, h')).
Proof.
  split.
  - destruct (boundary_addresses [[1; 4; 4; 4; 99]] 0%nat [1; 4; 4; 4; 99] 0 4 4 4)
      as [Hlast _]; [reflexivity..|].
    apply Hlast. simpl. lia.
  - destruct (boundary_addresses [[1; 0; 5; 0; 99]] 0%nat [1; 0; 5; 0; 99] 0 0 5 0)
      as [_ Hpast]; [reflexivity..|].
    destruct Hpast as (_ & _ & Hloop); [simpl; lia|].
    apply (Hloop 0%nat 1); [reflexivity|by left].
Defined.

(** C9, as stated, fails on an address below [-len]: in [1,-6,0,0,99] the
    first parameter word of the add at 0 is -6, a negative address that is
    neither at nor past [len = 5], and the operation raises [IndexError];
    the same with a multiply. *)
Lemma negative_address_counterexample :
  let h := [[1; -6; 0; 0; 99]] in
  let h' := [[2; -6; 0; 0; 99]] in
  list_getitem 0%nat 1 h = (Ok (-6), h) ∧ -6 < 0 ∧
  execute_add_operation 0%nat 0 h = (Raise IndexError, h) ∧
  simulate_program 0%nat h = (Raise IndexError, h) ∧
  execute_multiply_operation 0%nat 0 h' = (Raise IndexError, h') ∧
  simulate_program 0%nat h' = (Raise IndexError, h').
Proof. repeat split. Qed.

(** C9, amended.  A negative address [a] with [-len <= a < 0] names the
    cell at position [len + a]; an add or multiply whose three addresses lie
    in [-len, len) succeeds, reading and writing at the positions so
    resolved; an address below [-len], like one at or past [len], makes the
    operation fail with [IndexError]. *)
Theorem negative_addresses
    (h : heap) (program : Program) (cells : list Z) (ip a1 a2 a3 : Z) :
  h !! program = Some cells ->
  list_getitem program (ip + 1) h = (Ok a1, h) ->
  list_getitem program (ip + 2) h = (Ok a2, h) ->
  list_getitem program (ip + 3) h = (Ok a3, h) ->
  let len := Z.of_nat (length cells) in
  (∀ a, - len <= a < 0 ->
     resolve_index (length cells) a = Some (Z.to_nat (len + a)) ∧
     list_getitem program a h = list_getitem program (len + a) h) ∧
  (- len <= a1 < len ∧ - len <= a2 < len ∧ - len <= a3 < len ->
     ∃ (k1 k2 k3 : nat) (v1 v2 : Z),
       Z.of_nat k1 = (if decide (a1 < 0) then len + a1 else a1) ∧
       Z.of_nat k2 = (if decide (a2 < 0) then len + a2 else a2) ∧
       Z.of_nat k3 = (if decide (a3 < 0) then len + a3 else a3) ∧
       cells !! k1 = Some v1 ∧ cells !! k2 = Some v2 ∧
       execute_add_operation program ip h =
         (Ok (length h), h ++ [<[k3 := v1 + v2]> cells]) ∧
       execute_multiply_operation program ip h =
         (Ok (length h), h ++ [<[k3 := v1 * v2]> cells])) ∧
  ((a1 < - len ∨ len <= a1) ∨ (a2 < - len ∨ len <= a2) ∨ (a3 < - len ∨ len <= a3) ->
     (∃ h', execute_add_operation program ip h = (Raise IndexError, h')) ∧
     (∃ h', execute_multiply_operation program ip h = (Raise IndexError, h'))).
Proof.
  intros Hprogram Hf1 Hf2 Hf3 len.
  apply (list_getitem_Ok _ _ _ _ _ _ Hprogram) in Hf1, Hf2, Hf3.
  split; [|split].
  - intros a Ha. split; [by apply resolve_index_negative|].
    rewrite !(list_getitem_cells _ _ _ _ Hprogram). unfold cells_getitem.
    rewrite resolve_index_negative by done.
    by rewrite resolve_index_in_bounds by (fold len; lia).
  - intros (Ha1 & Ha2 & Ha3).
    destruct (cells_binary_valid Z.add cells ip a1 a2 a3 Hf1 Hf2 Hf3 Ha1 Ha2 Ha3)
      as (k1 & k2 & k3 & v1 & v2 & Hk1 & Hk2 & Hk3 & Hv1 & Hv2 & Hadd).
    destruct (cells_binary_valid Z.mul cells ip a1 a2 a3 Hf1 Hf2 Hf3 Ha1 Ha2 Ha3)
      as (k1' & k2' & k3' & v1' & v2' & Hk1' & Hk2' & Hk3' & Hv1' & Hv2' & Hmul).
    assert (k1' = k1) as -> by (fold len in Hk1, Hk1'; lia).
    assert (k2' = k2) as -> by (fold len in Hk2, Hk2'; lia).
    assert (k3' = k3) as -> by (fold len in Hk3, Hk3'; lia).
    assert (v1' = v1) as -> by congruence.
    assert (v2' = v2) as -> by congruence.
    destruct (execute_operations_Ok h program cells _ _ ip Hprogram Hadd Hmul)
      as [Hrun1 Hrun2].
    exists k1, k2, k3, v1, v2. by repeat split.
  - intros Hbad.
    apply (execute_operations_Raise h program cells ip Hprogram);
      by eapply cells_binary_invalid.
Qed.

Lemma negative_addresses_witness :
  (∃ updated h',
     execute_add_operation 0%nat 0 [[1; -1; -5; -2; 99]] = (Ok updated, h')) ∧
  (∃ h', execute_add_operation 0%nat 0 [[1; -6; 0; 0; 99]] = (Raise IndexError, h')).
Proof.
  split.
  - destruct (negative_addresses [[1; -1; -5; -2; 99]] 0%nat [1; -1; -5; -2; 99]
                0 (-1) (-5) (-2)) as (_ & Hvalid & _); [reflexivity..|].
    destruct Hvalid as (k1 & k2 & k3 & v1 & v2 & _ & _ & _ & _ & _ & Hadd & _);
      [simpl; lia|].
    eexists _, _. exact Hadd.
  - destruct (negative_addresses [[1; -6; 0; 0; 99]] 0%nat [1; -6; 0; 0; 99]
                0 (-6) 0 0) as (_ & _ & Hbad); [reflexivity..|].
    apply Hbad. simpl. lia.
Defined.

(** ** The claim about termination *)

(** C10. Every operation that the loop executes has size 4, so an iteration
    that does not stop moves the pointer four cells on; on a memory of
    [len] cells, [ceil(len / 4) + 1] iterations are enough for the loop to
    end, with a final memory or with an [IndexError], and more iterations
    change nothing: [simulate_program] always ends, one way or the other. *)
Theorem simulate_program_terminates (h : heap) (program : Program) (cells : list Z) :
  h !! program = Some cells ->
  (∀ word, dict_get OPERATIONS word HALT_OPERATION ≠ HALT_OPERATION ->
     size (dict_get OPERATIONS word HALT_OPERATION) = 4) ∧
  Z.of_nat (iteration_bound (length cells)) = (Z.of_nat (length cells) + 3) / 4 + 1 ∧
  (∀ fuel : nat, (Z.of_nat (length cells) + 3) / 4 + 1 <= Z.of_nat fuel ->
     simulate_loop fuel program 0 h = simulate_program program h) ∧
  (∀ fuel : nat, (simulate_loop fuel program 0 h).1 ≠ OutOfFuel ->
     simulate_loop fuel program 0 h = simulate_program program h) ∧
  ((∃ final h' cells',
      simulate_program program h = (Ok final, h') ∧
      h' !! final = Some cells' ∧ length cells' = length cells) ∨
   (∃ h', simulate_program program h = (Raise IndexError, h'))).
Proof.
  intros Hprogram.
  assert (Z.of_nat (iteration_bound (length cells)) =
          (Z.of_nat (length cells) + 3) / 4 + 1) as Hbound.
  { unfold iteration_bound. rewrite Nat2Z.inj_succ, Nat2Z.inj_div, Nat2Z.inj_add. lia. }
  split; [|split; [done|split; [|split]]].
  - intros word Hword.
    destruct (dispatch_cases word) as [[_ Heq]|[[_ Heq]|(_ & _ & Heq)]];
      by rewrite Heq in Hword |- *.
  - intros fuel Hfuel. apply (simulate_loop_enough _ _ cells); [done|lia].
  - intros fuel Hend. by apply (simulate_loop_ended _ _ cells).
  - destruct (simulate_program_refines h program cells Hprogram) as (h' & _ & Hrun).
    destruct (cells_simulate_cases cells) as [(cells' & Hcells & Hlen)|Hcells];
      rewrite Hcells in Hrun.
    + destruct Hrun as (final & Hrun & Hfinal). left. by exists final, h', cells'.
    + right. by exists h'.
Qed.

Lemma simulate_program_terminates_witness :
  simulate_loop 3 0%nat 0 [[1; 0; 0; 0; 2; 0; 0; 0]] =
    simulate_program 0%nat [[1; 0; 0; 0; 2; 0; 0; 0]] ∧
  ∃ h', simulate_program 0%nat [[1; 0; 0; 0; 2; 0; 0; 0]] = (Raise IndexError, h').
Proof.
  destruct (simulate_program_terminates [[1; 0; 0; 0; 2; 0; 0; 0]] 0%nat
              [1; 0; 0; 0; 2; 0; 0; 0]) as (_ & _ & Hfuel & _ & _); [reflexivity|].
  split; [apply (Hfuel 3%nat); vm_compute; discriminate|].
  eexists. vm_compute. reflexivity.
Defined.


(** ** The claim about the search *)

Section FirstMatch.
Implicit Types (cells : list Z) (T n v : Z).

Lemma scanned_before_trichotomy n v n' v' :
  scanned_before n' v' n v ∨ (n' = n ∧ v' = v) ∨ scanned_before n v n' v'.
Proof. unfold scanned_before. lia. Qed.

Lemma cells_yield_target_Raise cells n v T e :
  cells_yield_target cells n v T = Raise e <-> cells_trial cells n v = Raise e.
Proof.
  rewrite cells_yield_target_trial.
  destruct (cells_trial cells n v) as [output|e'| |]; simpl;
    split; intros ?; by simplify_eq.
Qed.

(** The search stops at the first pair whose trial is not a miss. *)
Lemma cells_find_at cells T n v :
  in_parameter_range n -> in_parameter_range v ->
  (∀ n' v', in_parameter_range n' -> in_parameter_range v' ->
     scanned_before n' v' n v -> cells_yield_target cells n' v' T = Ok false) ->
  cells_yield_target cells n v T ≠ Ok false ->
  cells_find cells T = (hit ← cells_yield_target cells n v T; Ok (mkParameters n v)).
Proof.
  intros Hn Hv Hbefore Hstop.
  destruct (cells_find_scan cells T)
    as [[Hall _]|(n0 & v0 & Hn0 & Hv0 & Hbefore0 & Hstop0 & Hrun)].
  { by rewrite Hall in Hstop. }
  destruct (scanned_before_trichotomy n v n0 v0) as [Hlt|[[-> ->]|Hlt]].
  - by rewrite Hbefore in Hstop0.
  - done.
  - by rewrite Hbefore0 in Hstop.
Qed.

Lemma cells_find_exhausted cells T :
  (∀ n v, in_parameter_range n -> in_parameter_range v ->
     cells_yield_target cells n v T = Ok false) ->
  cells_find cells T = Raise ValueError.
Proof.
  intros Hall.
  destruct (cells_find_scan cells T)
    as [[_ Hrun]|(n0 & v0 & Hn0 & Hv0 & _ & Hstop0 & _)]; [done|].
  by rewrite Hall in Hstop0.
Qed.

Lemma cells_find_Ok cells T n v :
  cells_find cells T = Ok (mkParameters n v) <->
  in_parameter_range n ∧ in_parameter_range v ∧
  cells_trial cells n v = Ok T ∧
  ∀ n' v', in_parameter_range n' -> in_parameter_range v' ->
    scanned_before n' v' n v ->
    ∃ output, cells_trial cells n' v' = Ok output ∧ output ≠ T.
Proof.
  split.
  - intros Hfind.
    destruct (cells_find_scan cells T)
      as [[_ Hrun]|(n0 & v0 & Hn0 & Hv0 & Hbefore0 & Hstop0 & Hrun)]; [congruence|].
    rewrite Hrun in Hfind.
    destruct (cells_yield_target cells n0 v0 T) as [[|]|e| |] eqn:Hyield; try done.
    simpl in Hfind. injection Hfind as -> ->.
    split; [done|]. split; [done|]. split; [by apply cells_yield_target_true|].
    intros n' v' Hn' Hv' Hlt. by apply cells_yield_target_false, Hbefore0.
  - intros (Hn & Hv & Htrial & Hbefore).
    apply cells_yield_target_true in Htrial.
    rewrite (cells_find_at cells T n v); [by rewrite Htrial|done|done| |by rewrite Htrial].
    intros n' v' Hn' Hv' Hlt. by apply cells_yield_target_false, Hbefore.
Qed.

Lemma cells_find_ValueError cells T :
  cells_find cells T = Raise ValueError <->
  ∀ n v, in_parameter_range n -> in_parameter_range v ->
    ∃ output, cells_trial cells n v = Ok output ∧ output ≠ T.
Proof.
  split.
  - intros Hfind n v Hn Hv. apply cells_yield_target_false.
    destruct (cells_find_scan cells T)
      as [[Hall _]|(n0 & v0 & Hn0 & Hv0 & _ & Hstop0 & Hrun)]; [by apply Hall|].
    rewrite Hrun in Hfind.
    destruct (cells_yield_target cells n0 v0 T) as [[|]|e| |] eqn:Hyield; try done.
    simpl in Hfind. injection Hfind as ->.
    apply cells_yield_target_Raise in Hyield.
    by destruct (cells_trial_cases cells n0 v0) as [[? ?]|?]; congruence.
  - intros Hall. apply cells_find_exhausted.
    intros n v Hn Hv. by apply cells_yield_target_false, Hall.
Qed.

Lemma cells_find_IndexError cells T :
  cells_find cells T = Raise IndexError <->
  ∃ n v, in_parameter_range n ∧ in_parameter_range v ∧
    cells_trial cells n v = Raise IndexError ∧
    ∀ n' v', in_parameter_range n' -> in_parameter_range v' ->
      scanned_before n' v' n v ->
      ∃ output, cells_trial cells n' v' = Ok output ∧ output ≠ T.
Proof.
  split.
  - intros Hfind.
    destruct (cells_find_scan cells T)
      as [[_ Hrun]|(n0 & v0 & Hn0 & Hv0 & Hbefore0 & Hstop0 & Hrun)]; [congruence|].
    rewrite Hrun in Hfind.
    destruct (cells_yield_target cells n0 v0 T) as [[|]|e| |] eqn:Hyield; try done.
    simpl in Hfind. injection Hfind as ->.
    exists n0, v0. split; [done|]. split; [done|].
    split; [by apply (cells_yield_target_Raise _ _ _ T)|].
    intros n' v' Hn' Hv' Hlt. by apply cells_yield_target_false, Hbefore0.
  - intros (n & v & Hn & Hv & Htrial & Hbefore).
    apply (cells_yield_target_Raise _ _ _ T) in Htrial.
    rewrite (cells_find_at cells T n v); [by rewrite Htrial|done|done| |by rewrite Htrial].
    intros n' v' Hn' Hv' Hlt. by apply cells_yield_target_false, Hbefore.
Qed.
End FirstMatch.

(** C1, as stated, fails when a trial faults before the first match.  In
    [1,0,0,0,99] the pair (4, 4) gives 99 + 99 = 198 and no pair scanned
    before it does, yet the search for 198 ends with the [IndexError] of the
    trial (0, 5), which reads address 5 of a memory of five cells.  In the
    same program no pair at all gives 7, and the search for 7 ends with
    that [IndexError] too, not with [ValueError]. *)
Lemma find_parameters_for_output_counterexample :
  let h := [[1; 0; 0; 0; 99]] in
  (in_parameter_range 4 ∧
   halts_with_output 0%nat 4 4 h 198 ∧
   (∀ n' v', in_parameter_range n' -> in_parameter_range v' ->
      scanned_before n' v' 4 4 -> ¬ halts_with_output 0%nat n' v' h 198) ∧
   (find_parameters_for_output 0%nat 198 h).1 = Raise IndexError) ∧
  ((∀ n v, in_parameter_range n -> in_parameter_range v ->
      ¬ halts_with_output 0%nat n v h 7) ∧
   (find_parameters_for_output 0%nat 7 h).1 = Raise IndexError).
Proof.
  intros h.
  assert (holds h 0%nat [1; 0; 0; 0; 99]) as Hprogram by reflexivity.
  split; [split; [|split; [|split]]|split].
  - unfold in_parameter_range; lia.
  - by apply (halts_with_output_cells h 0%nat _ _ _ _ Hprogram).
  - intros n' v' Hn' Hv' Hlt.
    rewrite (halts_with_output_cells h 0%nat _ _ _ _ Hprogram).
    assert (Forall (fun n => Forall (fun v =>
              (n = 4 ∧ v = 4) ∨ cells_trial [1; 0; 0; 0; 99] n v ≠ Ok 198)
              TARGET_PARAMETER_RANGE) TARGET_PARAMETER_RANGE) as Hall.
    { apply (bool_decide_unpack _). vm_compute. exact I. }
    rewrite Forall_forall in Hall.
    apply elem_of_TARGET_PARAMETER_RANGE in Hn', Hv'.
    specialize (Hall n' Hn'). rewrite Forall_forall in Hall.
    destruct (Hall v' Hv') as [[-> ->]|Hne]; [|done].
    unfold scanned_before in Hlt. lia.
  - vm_compute. reflexivity.
  - intros n v Hn Hv.
    rewrite (halts_with_output_cells h 0%nat _ _ _ _ Hprogram).
    assert (Forall (fun n => Forall (fun v =>
              cells_trial [1; 0; 0; 0; 99] n v ≠ Ok 7)
              TARGET_PARAMETER_RANGE) TARGET_PARAMETER_RANGE) as Hall.
    { apply (bool_decide_unpack _). vm_compute. exact I. }
    rewrite Forall_forall in Hall.
    apply elem_of_TARGET_PARAMETER_RANGE in Hn, Hv.
    specialize (Hall n Hn). rewrite Forall_forall in Hall. by apply Hall.
  - vm_compute. reflexivity.
Qed.

(** C1, amended.  The search returns [(noun, verb)] exactly when the pair
    is in [0,100) x [0,100), its trial (a configured copy of the program,
    run to the halt) leaves the target at address 0, and every pair before
    it in row-major order runs to the halt with another output.  It raises
    [ValueError] exactly when all the pairs run to the halt with another
    output, and [IndexError] exactly when a trial faults before any match.
    The objects that were in the store before the call, the program among
    them, keep their items. *)
Theorem find_parameters_for_output_first_match
    (h : heap) (program : Program) (cells : list Z) (T : Z) :
  h !! program = Some cells ->
  (∀ n v,
     (find_parameters_for_output program T h).1 = Ok (mkParameters n v) <->
     in_parameter_range n ∧ in_parameter_range v ∧
     halts_with_output program n v h T ∧
     ∀ n' v', in_parameter_range n' -> in_parameter_range v' ->
       scanned_before n' v' n v ->
       ∃ output, halts_with_output program n' v' h output ∧ output ≠ T) ∧
  ((find_parameters_for_output program T h).1 = Raise ValueError <->
   ∀ n v, in_parameter_range n -> in_parameter_range v ->
     ∃ output, halts_with_output program n v h output ∧ output ≠ T) ∧
  ((find_parameters_for_output program T h).1 = Raise IndexError <->
   ∃ n v, in_parameter_range n ∧ in_parameter_range v ∧
     (∀ output, ¬ halts_with_output program n v h output) ∧
     ∀ n' v', in_parameter_range n' -> in_parameter_range v' ->
       scanned_before n' v' n v ->
       ∃ output, halts_with_output program n' v' h output ∧ output ≠ T) ∧
  h `prefix_of` (find_parameters_for_output program T h).2.
Proof.
  intros Hprogram.
  assert (∀ n v output, halts_with_output program n v h output <->
                        cells_trial cells n v = Ok output) as Htrial
    by (intros; by apply halts_with_output_cells).
  assert (∀ n v, (∀ output, ¬ halts_with_output program n v h output) <->
                 cells_trial cells n v = Raise IndexError) as Hfault.
  { intros n v. setoid_rewrite Htrial.
    destruct (cells_trial_cases cells n v) as [[output Hrun]|Hrun]; rewrite Hrun.
    - split; [intros Hnone; by destruct (Hnone output)|done].
    - split; [done|by intros _ ?]. }
  rewrite (find_parameters_for_output_cells _ _ _ _ Hprogram).
  split; [|split; [|split]].
  - intros n v. rewrite cells_find_Ok. by setoid_rewrite Htrial.
  - rewrite cells_find_ValueError. by setoid_rewrite Htrial.
  - rewrite cells_find_IndexError. setoid_rewrite Hfault. by setoid_rewrite Htrial.
  - by eapply refines_prefix, find_parameters_for_output_refines.
Qed.

Lemma find_parameters_for_output_first_match_witness :
  (find_parameters_for_output 0%nat 2 [[1; 0; 0; 0; 99]]).1 = Ok (mkParameters 0 0).
Proof.
  destruct (find_parameters_for_output_first_match [[1; 0; 0; 0; 99]] 0%nat
              [1; 0; 0; 0; 99] 2) as (Hfound & _); [reflexivity|].
  apply Hfound. unfold in_parameter_range, scanned_before.
  split; [lia|]. split; [lia|]. split; [|intros; lia].
  exists 1%nat, [[1; 0; 0; 0; 99]; [1; 0; 0; 0; 99]], 2%nat,
    [[1; 0; 0; 0; 99]; [1; 0; 0; 0; 99]; [2; 0; 0; 0; 99]].
  repeat split.
Defined.


(** * Further properties of [day2/main.py] *)

(** ** The multiply operation, and when the operations succeed *)

(** X1. For a memory whose three parameter words at [ip + 1 .. ip + 3] are
    addresses within bounds, [execute_multiply_operation] returns a new list
    object that holds [Memory[Memory[ip+1]] * Memory[Memory[ip+2]]] at
    address [Memory[ip+3]] and the old value at every other address; the
    argument keeps its items, and the size of the operation is 4. *)
Theorem execute_multiply_operation_product
    (h : heap) (program : Program) (cells : list Z) (ip a1 a2 a3 : Z) :
  h !! program = Some cells ->
  list_getitem program (ip + 1) h = (Ok a1, h) ->
  list_getitem program (ip + 2) h = (Ok a2, h) ->
  list_getitem program (ip + 3) h = (Ok a3, h) ->
  in_bounds cells a1 -> in_bounds cells a2 -> in_bounds cells a3 ->
  ∃ v1 v2 updated,
    cells !! Z.to_nat a1 = Some v1 ∧
    cells !! Z.to_nat a2 = Some v2 ∧
    execute_multiply_operation program ip h = (Ok (length h), h ++ [updated]) ∧
    h !! length h = None ∧
    (h ++ [updated]) !! program = Some cells ∧
    length updated = length cells ∧
    updated !! Z.to_nat a3 = Some (v1 * v2) ∧
    (∀ j : nat, j ≠ Z.to_nat a3 -> updated !! j = cells !! j) ∧
    size MULTIPLY_OPERATION = 4.
Proof.
  intros Hprogram Hf1 Hf2 Hf3 Ha1 Ha2 Ha3.
  destruct (execute_multiply_operation_spec h program cells ip a1 a2 a3)
    as (v1 & v2 & Hv1 & Hv2 & Hrun & Hsize); try done.
  exists v1, v2, (<[Z.to_nat a3 := v1 * v2]> cells).
  repeat split; try done.
  - by apply lookup_ge_None_2.
  - by apply lookup_app_l_Some.
  - apply length_insert.
  - apply list_lookup_insert_eq. unfold in_bounds in Ha3. lia.
  - intros j Hj. by apply list_lookup_insert_ne.
Qed.

Lemma execute_multiply_operation_product_witness :
  let h := [[2; 3; 0; 3; 99]] in
  ∃ v1 v2 updated,
    [2; 3; 0; 3; 99] !! Z.to_nat 3 = Some v1 ∧
    [2; 3; 0; 3; 99] !! Z.to_nat 0 = Some v2 ∧
    execute_multiply_operation 0%nat 0 h = (Ok (length h), h ++ [updated]) ∧
    h !! length h = None ∧
    (h ++ [updated]) !! 0%nat = Some [2; 3; 0; 3; 99] ∧
    length updated = length [2; 3; 0; 3; 99] ∧
    updated !! Z.to_nat 3 = Some (v1 * v2) ∧
    (∀ j : nat, j ≠ Z.to_nat 3 -> updated !! j = [2; 3; 0; 3; 99] !! j) ∧
    size MULTIPLY_OPERATION = 4.
Proof.
  apply (execute_multiply_operation_product [[2; 3; 0; 3; 99]] 0%nat [2; 3; 0; 3; 99]
           0 3 0 3); try reflexivity; unfold in_bounds; simpl; lia.
Defined.

Lemma cells_setitem_Ok (cells : list Z) (a v : Z) (cells' : list Z) :
  cells_setitem cells a v = Ok cells' ->
  - Z.of_nat (length cells) <= a < Z.of_nat (length cells).
Proof.
  unfold cells_setitem.
  destruct (resolve_index (length cells) a) as [k|] eqn:Hk; [|done].
  intros _. by apply resolve_index_Some in Hk as [_ ?].
Qed.

(** An operation succeeds exactly when its three parameter words can be
    fetched and are valid addresses. *)
Lemma cells_binary_Ok_iff (f : Z -> Z -> Z) (cells : list Z) (ip : Z) :
  (∃ cells', cells_binary f cells ip = Ok cells') <->
  ∃ a1 a2 a3,
    cells_getitem cells (ip + 1) = Ok a1 ∧
    cells_getitem cells (ip + 2) = Ok a2 ∧
    cells_getitem cells (ip + 3) = Ok a3 ∧
    - Z.of_nat (length cells) <= a1 < Z.of_nat (length cells) ∧
    - Z.of_nat (length cells) <= a2 < Z.of_nat (length cells) ∧
    - Z.of_nat (length cells) <= a3 < Z.of_nat (length cells).
Proof.
  split.
  - intros [cells' Hrun]. unfold cells_binary in Hrun.
    destruct (cells_getitem cells (ip + 1)) as [a1| | |] eqn:Hf1; try done.
    destruct (cells_getitem cells (ip + 2)) as [a2| | |] eqn:Hf2; try done.
    destruct (cells_getitem cells (ip + 3)) as [a3| | |] eqn:Hf3; try done.
    simpl in Hrun.
    destruct (cells_getitem cells a1) as [v1| | |] eqn:Hv1; try done.
    destruct (cells_getitem cells a2) as [v2| | |] eqn:Hv2; try done.
    simpl in Hrun. exists a1, a2, a3.
    apply cells_getitem_Ok in Hv1, Hv2. apply cells_setitem_Ok in Hrun. done.
  - intros (a1 & a2 & a3 & Hf1 & Hf2 & Hf3 & Ha1 & Ha2 & Ha3).
    destruct (cells_binary_valid f cells ip a1 a2 a3 Hf1 Hf2 Hf3 Ha1 Ha2 Ha3)
      as (k1 & k2 & k3 & v1 & v2 & _ & _ & _ & _ & _ & Hrun).
    by eexists.
Qed.

Lemma list_getitem_cells_iff
    (h : heap) (program : Program) (cells : list Z) (a v : Z) :
  h !! program = Some cells ->
  list_getitem program a h = (Ok v, h) <-> cells_getitem cells a = Ok v.
Proof.
  intros Hprogram. rewrite (list_getitem_cells _ _ _ _ Hprogram).
  split; [by intros [= ->]|by intros ->].
Qed.

(** X2. Add and multiply succeed on the same memories: exactly those where
    the three parameter words can be fetched and each is a valid address
    ([-len <= a < len]).  On every other memory both raise [IndexError],
    and nothing else. *)
Theorem operations_succeed_together
    (h : heap) (program : Program) (cells : list Z) (ip : Z) :
  h !! program = Some cells ->
  let len := Z.of_nat (length cells) in
  let addressable :=
    ∃ a1 a2 a3,
      list_getitem program (ip + 1) h = (Ok a1, h) ∧
      list_getitem program (ip + 2) h = (Ok a2, h) ∧
      list_getitem program (ip + 3) h = (Ok a3, h) ∧
      - len <= a1 < len ∧ - len <= a2 < len ∧ - len <= a3 < len in
  ((∃ updated h', execute_add_operation program ip h = (Ok updated, h')) <->
   addressable) ∧
  ((∃ updated h', execute_multiply_operation program ip h = (Ok updated, h')) <->
   addressable) ∧
  (¬ addressable ->
   (∃ h', execute_add_operation program ip h = (Raise IndexError, h')) ∧
   (∃ h', execute_multiply_operation program ip h = (Raise IndexError, h'))).
Proof.
  intros Hprogram len addressable.
  assert (∀ f, (∃ cells', cells_binary f cells ip = Ok cells') <-> addressable) as Hiff.
  { intros f. rewrite cells_binary_Ok_iff. unfold addressable.
    by setoid_rewrite (list_getitem_cells_iff h program cells _ _ Hprogram). }
  pose proof (execute_add_operation_cells h program cells ip Hprogram) as Hadd.
  pose proof (execute_multiply_operation_cells h program cells ip Hprogram) as Hmul.
  unfold binary_outcome in Hadd, Hmul.
  split; [|split].
  - rewrite <- (Hiff Z.add).
    destruct (cells_binary Z.add cells ip) as [sum|e| |]; try done.
    + split; eauto.
    + destruct Hadd as [_ [Hadd|Hadd]];
        (split; [intros (? & ? & ?); congruence|by intros [? ?]]).
  - rewrite <- (Hiff Z.mul).
    destruct (cells_binary Z.mul cells ip) as [product|e| |]; try done.
    + split; eauto.
    + destruct Hmul as [_ [Hmul|Hmul]];
        (split; [intros (? & ? & ?); congruence|by intros [? ?]]).
  - intros Hnot.
    destruct (cells_binary Z.add cells ip) as [sum|e| |] eqn:Hsum; try done.
    { destruct Hnot. apply (Hiff Z.add). by eexists. }
    destruct (cells_binary Z.mul cells ip) as [product|e'| |] eqn:Hproduct; try done.
    { destruct Hnot. apply (Hiff Z.mul). by eexists. }
    destruct Hadd as [-> [Hadd|Hadd]], Hmul as [-> [Hmul|Hmul]]; eauto.
Qed.

Lemma operations_succeed_together_witness :
  (∃ updated h', execute_multiply_operation 0%nat 0 [[1; -1; 2; 3; 99]] = (Ok updated, h')) ∧
  (∃ h', execute_multiply_operation 0%nat 4 [[1; 0; 0; 0; 2; 0; 0]] = (Raise IndexError, h')).
Proof.
  split.
  - destruct (operations_succeed_together [[1; -1; 2; 3; 99]] 0%nat [1; -1; 2; 3; 99] 0)
      as (_ & Hmul & _); [reflexivity|].
    apply Hmul. exists (-1), 2, 3. simpl. repeat split; lia.
  - destruct (operations_succeed_together [[1; 0; 0; 0; 2; 0; 0]] 0%nat
                [1; 0; 0; 0; 2; 0; 0] 4) as (_ & _ & Hfail); [reflexivity|].
    apply Hfail. intros (a1 & a2 & a3 & _ & _ & Hf3 & _). vm_compute in Hf3. discriminate.
Defined.

(** ** What the functions leave alone *)

Lemma binary_outcome_prefix (f : Z -> Z -> Z) (m : M Program)
    (h : heap) (program : Program) (cells : list Z) (ip : Z) :
  binary_outcome f m h program cells ip -> h `prefix_of` (m h).2.
Proof.
  unfold binary_outcome. destruct (cells_binary f cells ip) as [cells'|e| |]; try done.
  - intros ->. by apply prefix_app_r.
  - intros [_ [-> | ->]]; [done|by apply prefix_app_r].
Qed.

(** X3. No function of the module writes to a list that existed before it
    was called: whether it returns or raises, the store it leaves is the
    store it found, followed by the lists it created.  This holds for the
    two operations, for [set_program_parameters], for the interpreter loop
    from any pointer, for [simulate_program] and for
    [parameters_yield_target_output]; so the program passed in, and every
    alias of it, keeps its items. *)
Theorem existing_lists_are_not_written
    (h : heap) (program : Program) (cells : list Z) :
  h !! program = Some cells ->
  (∀ ip, h `prefix_of` (execute_add_operation program ip h).2) ∧
  (∀ ip, h `prefix_of` (execute_multiply_operation program ip h).2) ∧
  (∀ noun verb, h `prefix_of` (set_program_parameters program noun verb h).2) ∧
  (∀ fuel pointer, h `prefix_of` (simulate_loop fuel program pointer h).2) ∧
  h `prefix_of` (simulate_program program h).2 ∧
  (∀ parameters target_output,
     h `prefix_of` (parameters_yield_target_output program parameters target_output h).2) ∧
  (∀ (f : M Program), h `prefix_of` (f h).2 ->
     ∀ xs items, h !! xs = Some items -> (f h).2 !! xs = Some items).
Proof.
  intros Hprogram. repeat split.
  - intros ip. eapply binary_outcome_prefix. by apply execute_add_operation_cells.
  - intros ip. eapply binary_outcome_prefix. by apply execute_multiply_operation_cells.
  - intros noun verb. by eapply refines_prefix, set_program_parameters_refines.
  - intros fuel pointer. by eapply refines_prefix, simulate_loop_refines.
  - by eapply refines_prefix, simulate_program_refines.
  - intros [noun verb] target_output.
    by eapply refines_prefix, parameters_yield_target_output_refines.
  - intros f Hpre xs items Hxs. by eapply prefix_lookup_Some.
Qed.

Lemma existing_lists_are_not_written_witness :
  (simulate_program 0%nat [[1; 0; 0; 0; 99]]).2 !! 0%nat = Some [1; 0; 0; 0; 99] ∧
  (simulate_program 0%nat [[1; 0; 0; 9; 99]]).2 !! 0%nat = Some [1; 0; 0; 9; 99].
Proof.
  split.
  - destruct (existing_lists_are_not_written [[1; 0; 0; 0; 99]] 0%nat [1; 0; 0; 0; 99])
      as (_ & _ & _ & _ & Hsim & _ & Hkeep); [reflexivity|].
    apply (Hkeep (simulate_program 0%nat) Hsim). reflexivity.
  - destruct (existing_lists_are_not_written [[1; 0; 0; 9; 99]] 0%nat [1; 0; 0; 9; 99])
      as (_ & _ & _ & _ & Hsim & _ & Hkeep); [reflexivity|].
    apply (Hkeep (simulate_program 0%nat) Hsim). reflexivity.
Defined.

(** ** The list that the interpreter returns *)

(** A stored function that returns has created one list, the last of the
    store. *)
Lemma call_Ok (h h1 : heap) (f : callable) (program program' : Program)
    (cells : list Z) (pointer : Z) :
  h !! program = Some cells ->
  call f program pointer h = (Ok program', h1) ->
  ∃ cells1, program' = length h ∧ h1 = h ++ [cells1] ∧
    cells_call f cells pointer = Ok cells1.
Proof.
  intros Hprogram Hcall. destruct f; simpl in *; [| |done].
  - pose proof (execute_add_operation_cells h program cells pointer Hprogram) as Hrun.
    unfold binary_outcome in Hrun.
    destruct (cells_binary Z.add cells pointer) as [cells1|e| |]; try done.
    + rewrite Hrun in Hcall. injection Hcall as <- <-. by exists cells1.
    + destruct Hrun as [_ [?|?]]; congruence.
  - pose proof (execute_multiply_operation_cells h program cells pointer Hprogram) as Hrun.
    unfold binary_outcome in Hrun.
    destruct (cells_binary Z.mul cells pointer) as [cells1|e| |]; try done.
    + rewrite Hrun in Hcall. injection Hcall as <- <-. by exists cells1.
    + destruct Hrun as [_ [?|?]]; congruence.
Qed.

(** The loop returns the list it was entered with, the store untouched, or
    a list created on the way. *)
Lemma simulate_loop_result (fuel : nat) :
  ∀ (h : heap) (program : Program) (cells : list Z) (pointer : Z)
    (final : Program) (h' : heap),
    h !! program = Some cells ->
    simulate_loop fuel program pointer h = (Ok final, h') ->
    (final = program ∧ h' = h) ∨ (length h <= final)%nat.
Proof.
  induction fuel as [|fuel IH]; intros h program cells pointer final h' Hprogram Hrun;
    [done|].
  simpl in Hrun. unfold mbind at 1, M_bind in Hrun.
  rewrite (list_getitem_cells _ _ _ _ Hprogram) in Hrun.
  destruct (cells_getitem cells pointer) as [word| | |]; try done.
  case_decide as Hop.
  { left. unfold mret, M_ret in Hrun. by simplify_eq. }
  right. unfold mbind, M_bind in Hrun.
  destruct (call _ program pointer h) as [[program'|e| |] h1] eqn:Hcall; try done.
  destruct (call_Ok _ _ _ _ _ _ _ Hprogram Hcall) as (cells1 & -> & -> & _).
  destruct (IH _ _ cells1 _ final h' (lookup_last h cells1) Hrun) as [[-> _]|Hnew];
    [done|].
  rewrite length_app in Hnew. lia.
Qed.

(** X4. When [simulate_program] returns, the list it returns is its
    argument itself if the word at address 0 is neither 1 nor 2 (nothing
    was executed, and no list was created), and otherwise a list that did
    not exist before the call. *)
Theorem simulate_program_result_alias
    (h h' : heap) (program final : Program) (cells : list Z) :
  h !! program = Some cells ->
  simulate_program program h = (Ok final, h') ->
  ∃ word, cells !! 0%nat = Some word ∧
    ((word ≠ 1 ∧ word ≠ 2 ∧ final = program ∧ h' = h) ∨
     ((word = 1 ∨ word = 2) ∧ h !! final = None ∧ final ≠ program ∧
      is_Some (h' !! final))).
Proof.
  intros Hprogram Hrun.
  pose proof (simulate_program_refines h program cells Hprogram) as Href.
  destruct (refines_Ok_inv _ _ _ _ _ _ Href Hrun) as (items & _ & Hfinal & _).
  rewrite (simulate_program_unfold _ _ _ Hprogram) in Hrun.
  unfold iteration_bound in Hrun.
  pose proof Hrun as Hfirst. simpl in Hfirst. unfold mbind at 1, M_bind in Hfirst.
  rewrite (list_getitem_cells _ _ _ _ Hprogram) in Hfirst.
  destruct (cells_getitem cells 0) as [word| | |] eqn:Hword; try done.
  assert (cells !! 0%nat = Some word) as Hcell.
  { pose proof (cells_getitem_Ok _ _ _ Hword) as Hvalid.
    destruct (cells_getitem_in_bounds cells 0) as (v & Hv & Hlookup);
      [unfold in_bounds; lia|].
    change (Z.to_nat 0) with 0%nat in Hlookup. congruence. }
  exists word. split; [done|].
  destruct (dispatch_cases word) as [[-> Heq]|[[-> Heq]|(H1 & H2 & Heq)]].
  - right. split; [by left|].
    rewrite Heq in Hfirst. rewrite decide_False in Hfirst by done.
    unfold mbind, M_bind in Hfirst.
    destruct (call _ program 0 h) as [[program'|e| |] h1] eqn:Hcall; try done.
    destruct (call_Ok _ _ _ _ _ _ _ Hprogram Hcall) as (cells1 & -> & -> & _).
    destruct (simulate_loop_result _ _ _ cells1 _ _ _ (lookup_last h cells1) Hfirst)
      as [[-> _]|Hnew].
    + apply lookup_lt_Some in Hprogram.
      split; [by apply lookup_ge_None_2|]. split; [lia|by eexists].
    + rewrite length_app in Hnew. apply lookup_lt_Some in Hprogram.
      split; [apply lookup_ge_None_2; lia|]. split; [lia|by eexists].
  - right. split; [by right|].
    rewrite Heq in Hfirst. rewrite decide_False in Hfirst by done.
    unfold mbind, M_bind in Hfirst.
    destruct (call _ program 0 h) as [[program'|e| |] h1] eqn:Hcall; try done.
    destruct (call_Ok _ _ _ _ _ _ _ Hprogram Hcall) as (cells1 & -> & -> & _).
    destruct (simulate_loop_result _ _ _ cells1 _ _ _ (lookup_last h cells1) Hfirst)
      as [[-> _]|Hnew].
    + apply lookup_lt_Some in Hprogram.
      split; [by apply lookup_ge_None_2|]. split; [lia|by eexists].
    + rewrite length_app in Hnew. apply lookup_lt_Some in Hprogram.
      split; [apply lookup_ge_None_2; lia|]. split; [lia|by eexists].
  - left. rewrite Heq in Hfirst. rewrite decide_True in Hfirst by done.
    unfold mret, M_ret in Hfirst. by simplify_eq.
Qed.

Lemma simulate_program_result_alias_witness :
  ∃ word, [1; 0; 0; 0; 99] !! 0%nat = Some word ∧
    ((word ≠ 1 ∧ word ≠ 2 ∧ 1%nat = 0%nat ∧
      [[1; 0; 0; 0; 99]; [2; 0; 0; 0; 99]] = [[1; 0; 0; 0; 99]]) ∨
     ((word = 1 ∨ word = 2) ∧ [[1; 0; 0; 0; 99]] !! 1%nat = None ∧ 1%nat ≠ 0%nat ∧
      is_Some ([[1; 0; 0; 0; 99]; [2; 0; 0; 0; 99]] !! 1%nat))).
Proof.
  apply (simulate_program_result_alias [[1; 0; 0; 0; 99]]
           [[1; 0; 0; 0; 99]; [2; 0; 0; 0; 99]] 0%nat 1%nat [1; 0; 0; 0; 99]);
    reflexivity.
Defined.

(** A run that returns stopped on a word that is no add and no multiply,
    some whole number of instructions after the pointer it started from. *)
Lemma cells_simulate_loop_stop (fuel : nat) :
  ∀ (cells : list Z) (pointer : Z) (final : list Z),
    0 <= pointer ->
    cells_simulate_loop fuel cells pointer = Ok final ->
    ∃ (k : nat) (word : Z),
      (k < fuel)%nat ∧
      final !! Z.to_nat (pointer + 4 * Z.of_nat k) = Some word ∧ word ≠ 1 ∧ word ≠ 2.
Proof.
  induction fuel as [|fuel IH]; intros cells pointer final Hpointer Hrun; [done|].
  simpl in Hrun.
  destruct (cells_getitem cells pointer) as [word| | |] eqn:Hword; try done.
  simpl in Hrun. case_decide as Hop.
  - injection Hrun as <-. exists 0%nat, word.
    pose proof (cells_getitem_Ok _ _ _ Hword) as Hvalid.
    destruct (cells_getitem_in_bounds cells pointer) as (v & Hv & Hlookup);
      [unfold in_bounds; lia|].
    replace (pointer + 4 * Z.of_nat 0) with pointer by lia.
    split; [lia|]. split; [congruence|].
    destruct (dispatch_cases word) as [[_ Heq]|[[_ Heq]|(? & ? & _)]];
      [by rewrite Heq in Hop..|done].
  - assert (size (dict_get OPERATIONS word HALT_OPERATION) = 4) as Hsize.
    { destruct (dispatch_cases word) as [[_ ->]|[[_ ->]|(_ & _ & ?)]]; done. }
    rewrite Hsize in Hrun.
    destruct (cells_call _ cells pointer) as [cells1| | |]; try done.
    simpl in Hrun.
    destruct (IH cells1 (pointer + 4) final ltac:(lia) Hrun)
      as (k & word' & Hk & Hlookup & Hne).
    exists (S k), word'. split; [lia|].
    replace (pointer + 4 * Z.of_nat (S k)) with (pointer + 4 + 4 * Z.of_nat k) by lia.
    done.
Qed.

(** X5. When [simulate_program] returns, the memory it returns has as many
    cells as the one it was given, and holds a word that is neither 1 nor 2
    at an address [4 * k] within bounds: the run went through [k]
    instructions of four words and stopped there. *)
Theorem simulate_program_stops_on_boundary
    (h h' : heap) (program final : Program) (cells : list Z) :
  h !! program = Some cells ->
  simulate_program program h = (Ok final, h') ->
  ∃ (items : list Z) (k : nat) (word : Z),
    h' !! final = Some items ∧
    length items = length cells ∧
    (4 * k < length cells)%nat ∧
    items !! (4 * k)%nat = Some word ∧ word ≠ 1 ∧ word ≠ 2.
Proof.
  intros Hprogram Hrun.
  pose proof (simulate_program_refines h program cells Hprogram) as Href.
  destruct (refines_Ok_inv _ _ _ _ _ _ Href Hrun) as (items & Hitems & Hfinal & _).
  unfold cells_simulate in Hitems.
  pose proof (cells_simulate_loop_length _ _ _ _ Hitems) as Hlen.
  destruct (cells_simulate_loop_stop _ cells 0 items ltac:(lia) Hitems)
    as (k & word & _ & Hword & Hne).
  replace (Z.to_nat (0 + 4 * Z.of_nat k)) with (4 * k)%nat in Hword by lia.
  exists items, k, word. split; [done|]. split; [done|].
  split; [|done]. apply lookup_lt_Some in Hword. lia.
Qed.

Lemma simulate_program_stops_on_boundary_witness :
  ∃ (items : list Z) (k : nat) (word : Z),
    [[1; 0; 0; 0; 99]; [2; 0; 0; 0; 99]] !! 1%nat = Some items ∧
    length items = length [1; 0; 0; 0; 99] ∧
    (4 * k < length [1; 0; 0; 0; 99])%nat ∧
    items !! (4 * k)%nat = Some word ∧ word ≠ 1 ∧ word ≠ 2.
Proof.
  apply (simulate_program_stops_on_boundary [[1; 0; 0; 0; 99]]
           [[1; 0; 0; 0; 99]; [2; 0; 0; 0; 99]] 0%nat 1%nat [1; 0; 0; 0; 99]);
    reflexivity.
Defined.

(** X6. What [simulate_program] does depends on the items of its argument
    only, not on the reference that names them nor on the other lists of
    the store: two programs with the same items both return, with final
    memories of the same items, or both raise [IndexError]. *)
Theorem simulate_program_depends_on_items
    (h1 h2 : heap) (program1 program2 : Program) (cells : list Z) :
  h1 !! program1 = Some cells ->
  h2 !! program2 = Some cells ->
  (∃ final1 h1' final2 h2' items,
     simulate_program program1 h1 = (Ok final1, h1') ∧
     simulate_program program2 h2 = (Ok final2, h2') ∧
     h1' !! final1 = Some items ∧ h2' !! final2 = Some items) ∨
  (∃ h1' h2',
     simulate_program program1 h1 = (Raise IndexError, h1') ∧
     simulate_program program2 h2 = (Raise IndexError, h2')).
Proof.
  intros Hprogram1 Hprogram2.
  destruct (simulate_program_refines h1 program1 cells Hprogram1) as (h1' & _ & Hrun1).
  destruct (simulate_program_refines h2 program2 cells Hprogram2) as (h2' & _ & Hrun2).
  destruct (cells_simulate_cases cells) as [(items & Hcells & _)|Hcells];
    rewrite Hcells in Hrun1, Hrun2.
  - destruct Hrun1 as (final1 & Hrun1 & Hfinal1), Hrun2 as (final2 & Hrun2 & Hfinal2).
    left. by exists final1, h1', final2, h2', items.
  - right. by exists h1', h2'.
Qed.

Lemma simulate_program_depends_on_items_witness :
  (∃ final1 h1' final2 h2' items,
     simulate_program 0%nat [[2; 0; 0; 0; 99]] = (Ok final1, h1') ∧
     simulate_program 1%nat [[]; [2; 0; 0; 0; 99]; [7]] = (Ok final2, h2') ∧
     h1' !! final1 = Some items ∧ h2' !! final2 = Some items) ∨
  (∃ h1' h2',
     simulate_program 0%nat [[2; 0; 0; 0; 99]] = (Raise IndexError, h1') ∧
     simulate_program 1%nat [[]; [2; 0; 0; 0; 99]; [7]] = (Raise IndexError, h2')).
Proof.
  apply (simulate_program_depends_on_items [[2; 0; 0; 0; 99]] [[]; [2; 0; 0; 0; 99]; [7]]
           0%nat 1%nat [2; 0; 0; 0; 99]); reflexivity.
Defined.

(** ** Configuring, and the trials of the search *)

Lemma cells_set_parameters_long (cells : list Z) (noun verb : Z) :
  (3 <= length cells)%nat ->
  cells_set_parameters cells noun verb = Ok (<[2%nat := verb]> (<[1%nat := noun]> cells)).
Proof.
  intros Hlen. unfold cells_set_parameters.
  rewrite cells_setitem_in_bounds by (unfold in_bounds; lia). simpl.
  by rewrite cells_setitem_in_bounds by (unfold in_bounds; rewrite length_insert; lia).
Qed.

Lemma cells_set_parameters_short (cells : list Z) (noun verb : Z) :
  (length cells < 3)%nat ->
  cells_set_parameters cells noun verb = Raise IndexError.
Proof.
  intros Hlen. unfold cells_set_parameters.
  destruct (decide (length cells = 2%nat)) as [Htwo|Hless].
  - rewrite cells_setitem_in_bounds by (unfold in_bounds; lia). simpl.
    by rewrite cells_setitem_outside by (rewrite length_insert; lia).
  - by rewrite cells_setitem_outside by lia.
Qed.

Lemma parameters_yield_target_output_cells
    (h : heap) (program : Program) (cells : list Z) (n v T : Z) :
  h !! program = Some cells ->
  (parameters_yield_target_output program (mkParameters n v) T h).1 =
    cells_yield_target cells n v T.
Proof.
  intros Hprogram. by apply refines_same, parameters_yield_target_output_refines.
Qed.

(** X7. [set_program_parameters] returns exactly when the program has at
    least three cells.  On a shorter program it raises [IndexError], the
    program keeping its items, and so do every trial and every search:
    [find_parameters_for_output] never gets to its [ValueError]. *)
Theorem short_program_is_not_configured
    (h : heap) (program : Program) (cells : list Z) :
  h !! program = Some cells ->
  (∀ noun verb,
     (∃ configured h', set_program_parameters program noun verb h = (Ok configured, h'))
     <-> (3 <= length cells)%nat) ∧
  ((length cells < 3)%nat ->
   (∀ noun verb, ∃ h',
      set_program_parameters program noun verb h = (Raise IndexError, h') ∧
      h' !! program = Some cells) ∧
   (∀ noun verb target_output,
      (parameters_yield_target_output program (mkParameters noun verb) target_output h).1
      = Raise IndexError) ∧
   (∀ target_output,
      (find_parameters_for_output program target_output h).1 = Raise IndexError)).
Proof.
  intros Hprogram.
  assert (∀ noun verb, (length cells < 3)%nat -> ∃ h',
            set_program_parameters program noun verb h = (Raise IndexError, h') ∧
            h' !! program = Some cells) as Hshort.
  { intros noun verb Hlen.
    pose proof (set_program_parameters_cells h program cells noun verb Hprogram) as Hrun.
    rewrite cells_set_parameters_short in Hrun by done.
    destruct Hrun as (_ & unused & Hrun). exists (h ++ [unused]).
    split; [done|]. by apply lookup_app_l_Some. }
  split; [|intros Hlen; split; [by auto|split]].
  - intros noun verb. split.
    + intros (configured & h' & Hrun).
      destruct (decide (3 <= length cells)%nat) as [|Hlen]; [done|].
      destruct (Hshort noun verb ltac:(lia)) as (h1 & Hraise & _). congruence.
    + intros Hlen.
      pose proof (set_program_parameters_cells h program cells noun verb Hprogram) as Hrun.
      rewrite cells_set_parameters_long in Hrun by done. eauto.
  - intros noun verb target_output.
    rewrite (parameters_yield_target_output_cells _ _ cells) by done.
    unfold cells_yield_target. by rewrite cells_set_parameters_short.
  - intros target_output.
    rewrite (find_parameters_for_output_cells _ _ cells) by done.
    apply cells_find_IndexError. exists 0, 0.
    unfold in_parameter_range, scanned_before.
    split; [lia|]. split; [lia|]. split; [|intros; lia].
    unfold cells_trial. by rewrite cells_set_parameters_short.
Qed.

Lemma short_program_is_not_configured_witness :
  (∃ configured h',
     set_program_parameters 0%nat 12 2 [[1; 0; 0]] = (Ok configured, h')) ∧
  (find_parameters_for_output 0%nat 99 [[99; 0]]).1 = Raise IndexError.
Proof.
  split.
  - destruct (short_program_is_not_configured [[1; 0; 0]] 0%nat [1; 0; 0])
      as (Hiff & _); [reflexivity|].
    apply Hiff. simpl. lia.
  - destruct (short_program_is_not_configured [[99; 0]] 0%nat [99; 0])
      as (_ & Hshort); [reflexivity|].
    destruct Hshort as (_ & _ & Hfind); [simpl; lia|]. apply Hfind.
Defined.

(** X8. [parameters_yield_target_output] returns [True] exactly when the
    configured copy of the program runs to the halt with the target at
    address 0, and [False] exactly when it runs to the halt with another
    output; otherwise it raises [IndexError].  It ends in no other way. *)
Theorem parameters_yield_target_output_decides
    (h : heap) (program : Program) (cells : list Z) (n v T : Z) :
  h !! program = Some cells ->
  let result := (parameters_yield_target_output program (mkParameters n v) T h).1 in
  (result = Ok true <-> halts_with_output program n v h T) ∧
  (result = Ok false <->
   ∃ output, halts_with_output program n v h output ∧ output ≠ T) ∧
  (result = Raise IndexError <-> ∀ output, ¬ halts_with_output program n v h output) ∧
  (result = Ok true ∨ result = Ok false ∨ result = Raise IndexError).
Proof.
  intros Hprogram result. unfold result.
  rewrite (parameters_yield_target_output_cells _ _ cells) by done.
  assert (∀ output, halts_with_output program n v h output <->
                    cells_trial cells n v = Ok output) as Htrial
    by (intros; by apply halts_with_output_cells).
  split; [|split; [|split]].
  - by rewrite cells_yield_target_true, Htrial.
  - rewrite cells_yield_target_false. by setoid_rewrite Htrial.
  - rewrite cells_yield_target_Raise. setoid_rewrite Htrial.
    destruct (cells_trial_cases cells n v) as [[output Hrun]|Hrun]; rewrite Hrun.
    + split; [done|]. intros Hnone. by destruct (Hnone output).
    + split; [by intros _ ?|done].
  - rewrite cells_yield_target_trial.
    destruct (cells_trial_cases cells n v) as [[output ->]| ->]; simpl.
    + case_bool_decide; auto.
    + auto.
Qed.

Lemma parameters_yield_target_output_decides_witness :
  (parameters_yield_target_output 0%nat (mkParameters 4 4) 198 [[1; 0; 0; 0; 99]]).1 = Ok true.
Proof.
  destruct (parameters_yield_target_output_decides [[1; 0; 0; 0; 99]] 0%nat
              [1; 0; 0; 0; 99] 4 4 198) as (Htrue & _); [reflexivity|].
  apply Htrue.
  exists 1%nat, [[1; 0; 0; 0; 99]; [1; 4; 4; 0; 99]], 2%nat,
    [[1; 0; 0; 0; 99]; [1; 4; 4; 0; 99]; [198; 4; 4; 0; 99]].
  repeat split.
Defined.

Lemma cells_for_in_ext {A R} (xs : list A) (body body' : A -> outcome (option R)) :
  (∀ x, body x = body' x) -> cells_for_in xs body = cells_for_in xs body'.
Proof.
  intros Hbody. induction xs as [|x xs IH]; [done|].
  simpl. rewrite Hbody. destruct (body' x) as [[r|]| | |]; simpl; done.
Qed.

(** Configuring overwrites addresses 1 and 2: what was there is lost. *)
Lemma cells_set_parameters_overwrites (cells1 cells2 : list Z) (noun verb : Z) :
  length cells1 = length cells2 ->
  (∀ j : nat, j ≠ 1%nat -> j ≠ 2%nat -> cells1 !! j = cells2 !! j) ->
  cells_set_parameters cells1 noun verb = cells_set_parameters cells2 noun verb.
Proof.
  intros Hlen Hagree.
  destruct (decide (3 <= length cells1)%nat) as [Hlong|Hshort].
  - rewrite !cells_set_parameters_long by lia. f_equal.
    apply list_eq. intros j.
    destruct (decide (j = 2%nat)) as [->|Hj2].
    { rewrite !list_lookup_insert_eq by (rewrite length_insert; lia). done. }
    rewrite !(list_lookup_insert_ne _ 2%nat) by done.
    destruct (decide (j = 1%nat)) as [->|Hj1].
    { rewrite !list_lookup_insert_eq by lia. done. }
    rewrite !list_lookup_insert_ne by done. by apply Hagree.
  - by rewrite !cells_set_parameters_short by lia.
Qed.

(** X9. The search and its trials do not look at what the program holds at
    addresses 1 and 2: two programs of the same length that agree at every
    other address, in whatever stores, give the same answer to every trial
    and the same result (pair found, [ValueError] or [IndexError]) to every
    search. *)
Theorem search_ignores_addresses_1_and_2
    (h1 h2 : heap) (program1 program2 : Program) (cells1 cells2 : list Z) :
  h1 !! program1 = Some cells1 ->
  h2 !! program2 = Some cells2 ->
  length cells1 = length cells2 ->
  (∀ j : nat, j ≠ 1%nat -> j ≠ 2%nat -> cells1 !! j = cells2 !! j) ->
  (∀ noun verb target_output,
     (parameters_yield_target_output program1 (mkParameters noun verb) target_output h1).1 =
     (parameters_yield_target_output program2 (mkParameters noun verb) target_output h2).1) ∧
  (∀ target_output,
     (find_parameters_for_output program1 target_output h1).1 =
     (find_parameters_for_output program2 target_output h2).1).
Proof.
  intros Hprogram1 Hprogram2 Hlen Hagree.
  assert (∀ noun verb T,
            cells_yield_target cells1 noun verb T = cells_yield_target cells2 noun verb T)
    as Hyield.
  { intros noun verb T. unfold cells_yield_target.
    by rewrite (cells_set_parameters_overwrites cells1 cells2). }
  split.
  - intros noun verb T.
    rewrite (parameters_yield_target_output_cells _ _ cells1) by done.
    rewrite (parameters_yield_target_output_cells _ _ cells2) by done.
    apply Hyield.
  - intros T.
    rewrite (find_parameters_for_output_cells _ _ cells1) by done.
    rewrite (find_parameters_for_output_cells _ _ cells2) by done.
    unfold cells_find. f_equal.
    apply cells_for_in_ext. intros noun.
    apply cells_for_in_ext. intros verb.
    unfold cells_probe. by rewrite Hyield.
Qed.

Lemma search_ignores_addresses_1_and_2_witness :
  (find_parameters_for_output 0%nat 2 [[1; 0; 0; 0; 99]]).1 =
  (find_parameters_for_output 1%nat 2 [[]; [1; 55; -7; 0; 99]]).1.
Proof.
  destruct (search_ignores_addresses_1_and_2 [[1; 0; 0; 0; 99]] [[]; [1; 55; -7; 0; 99]]
              0%nat 1%nat [1; 0; 0; 0; 99] [1; 55; -7; 0; 99])
    as (_ & Hfind); [reflexivity|reflexivity|reflexivity| |apply Hfind].
  intros [|[|[|j]]] Hj1 Hj2; [reflexivity|lia|lia|reflexivity].
Defined.

(** X10. Configuring a configured copy gives the items of configuring the
    program itself: the second noun and verb replace the first, and the
    first copy and the program keep their items.  In particular
    [recreate_1202_program_alarm_state] gives the program with 12 at
    address 1 and 2 at address 2, whatever it was configured with before. *)
Theorem set_program_parameters_twice
    (h : heap) (program : Program) (cells : list Z) (n1 v1 n2 v2 : Z) :
  h !! program = Some cells ->
  (3 <= length cells)%nat ->
  ∃ first h1 second h2 alarm h3,
    set_program_parameters program n1 v1 h = (Ok first, h1) ∧
    set_program_parameters first n2 v2 h1 = (Ok second, h2) ∧
    recreate_1202_program_alarm_state second h2 = (Ok alarm, h3) ∧
    h3 !! program = Some cells ∧
    h3 !! first = Some (<[2%nat := v1]> (<[1%nat := n1]> cells)) ∧
    h3 !! second = Some (<[2%nat := v2]> (<[1%nat := n2]> cells)) ∧
    h3 !! alarm = Some (<[2%nat := 2]> (<[1%nat := 12]> cells)) ∧
    ∃ direct h', recreate_1202_program_alarm_state program h = (Ok direct, h') ∧
      h' !! direct = h3 !! alarm.
Proof.
  intros Hprogram Hlen.
  assert (∀ (cs : list Z) a b c d,
            cells_set_parameters (<[2%nat := b]> (<[1%nat := a]> cs)) c d =
            cells_set_parameters cs c d) as Hover.
  { intros cs a b c d. apply cells_set_parameters_overwrites.
    - by rewrite !length_insert.
    - intros j Hj1 Hj2. by rewrite !list_lookup_insert_ne. }
  pose (c1 := <[2%nat := v1]> (<[1%nat := n1]> cells)).
  pose (c2 := <[2%nat := v2]> (<[1%nat := n2]> cells)).
  pose (c3 := <[2%nat := 2]> (<[1%nat := 12]> cells)).
  assert (cells_set_parameters cells n1 v1 = Ok c1) as Hc1
    by by apply cells_set_parameters_long.
  assert (cells_set_parameters c1 n2 v2 = Ok c2) as Hc2
    by (unfold c1; rewrite Hover; by apply cells_set_parameters_long).
  assert (cells_set_parameters c2 12 2 = Ok c3) as Hc3
    by (unfold c2; rewrite Hover; by apply cells_set_parameters_long).
  assert (cells_set_parameters cells 12 2 = Ok c3) as Hc4
    by by apply cells_set_parameters_long.
  pose proof (set_program_parameters_cells h program cells n1 v1 Hprogram) as Hrun1.
  rewrite Hc1 in Hrun1.
  pose proof (set_program_parameters_cells (h ++ [c1]) (length h) c1 n2 v2
                (lookup_last h c1)) as Hrun2.
  rewrite Hc2 in Hrun2.
  pose proof (set_program_parameters_cells ((h ++ [c1]) ++ [c2]) (length (h ++ [c1])) c2
                12 2 (lookup_last (h ++ [c1]) c2)) as Hrun3.
  rewrite Hc3 in Hrun3.
  pose proof (set_program_parameters_cells h program cells 12 2 Hprogram) as Hrun4.
  rewrite Hc4 in Hrun4.
  exists (length h), (h ++ [c1]), (length (h ++ [c1])), ((h ++ [c1]) ++ [c2]),
    (length ((h ++ [c1]) ++ [c2])), (((h ++ [c1]) ++ [c2]) ++ [c3]).
  split; [done|]. split; [done|]. split; [done|].
  split; [by do 3 apply lookup_app_l_Some|].
  split; [do 2 apply lookup_app_l_Some; apply lookup_last|].
  split; [apply lookup_app_l_Some; apply lookup_last|].
  split; [apply lookup_last|].
  exists (length h), (h ++ [c3]). split; [done|]. by rewrite !lookup_last.
Qed.

Lemma set_program_parameters_twice_witness :
  ∃ first h1 second h2 alarm h3,
    set_program_parameters 0%nat 5 6 [[1; 0; 0; 3]] = (Ok first, h1) ∧
    set_program_parameters first 7 8 h1 = (Ok second, h2) ∧
    recreate_1202_program_alarm_state second h2 = (Ok alarm, h3) ∧
    h3 !! alarm = Some [1; 12; 2; 3].
Proof.
  destruct (set_program_parameters_twice [[1; 0; 0; 3]] 0%nat [1; 0; 0; 3] 5 6 7 8)
    as (first & h1 & second & h2 & alarm & h3 & Hrun1 & Hrun2 & Hrun3 & _ & _ & _ & Halarm & _);
    [reflexivity|simpl; lia|].
  exists first, h1, second, h2, alarm, h3. repeat split; assumption.
Defined.

(** X11. A program of at least three cells whose first word is neither 1
    nor 2 halts at once for every noun and verb, with that word as output:
    the search returns (0, 0) when the target is that word and raises
    [ValueError] for every other target. *)
Theorem search_on_halted_program
    (h : heap) (program : Program) (cells : list Z) (word target_output : Z) :
  h !! program = Some cells ->
  (3 <= length cells)%nat ->
  cells !! 0%nat = Some word ->
  word ≠ 1 -> word ≠ 2 ->
  (∀ noun verb, halts_with_output program noun verb h word) ∧
  (find_parameters_for_output program target_output h).1 =
    (if decide (target_output = word) then Ok (mkParameters 0 0) else Raise ValueError).
Proof.
  intros Hprogram Hlen Hword H1 H2.
  assert (∀ noun verb, cells_trial cells noun verb = Ok word) as Htrial.
  { intros noun verb. unfold cells_trial. rewrite cells_set_parameters_long by done.
    simpl. set (configured := <[2%nat := verb]> (<[1%nat := noun]> cells)).
    assert (configured !! 0%nat = Some word) as Hfirst
      by (unfold configured; by rewrite !list_lookup_insert_ne).
    assert (cells_getitem configured 0 = Ok word) as Hfetch.
    { destruct (cells_getitem_in_bounds configured 0) as (w & -> & Hw).
      - apply lookup_lt_Some in Hfirst. unfold in_bounds. lia.
      - change (Z.to_nat 0) with 0%nat in Hw. congruence. }
    unfold cells_simulate, iteration_bound. simpl. rewrite Hfetch. simpl.
    rewrite OPERATIONS_fallback by done. rewrite decide_True by done. simpl.
    exact Hfetch. }
  split.
  { intros noun verb. by apply (halts_with_output_cells h program cells). }
  rewrite (find_parameters_for_output_cells _ _ cells) by done.
  case_decide as Htarget.
  - subst target_output. apply cells_find_Ok.
    unfold in_parameter_range, scanned_before.
    split; [lia|]. split; [lia|]. split; [done|intros; lia].
  - apply cells_find_ValueError. intros n v _ _. exists word. split; [done|congruence].
Qed.

Lemma search_on_halted_program_witness :
  (find_parameters_for_output 0%nat 5 [[99; 1; 2]]).1 = Raise ValueError.
Proof.
  destruct (search_on_halted_program [[99; 1; 2]] 0%nat [99; 1; 2] 99 5) as [_ Hfind];
    [reflexivity|simpl; lia|reflexivity|lia|lia|].
  exact Hfind.
Defined.
